(** * MicroManagerr: configuration, service guards and placeholder endpoints

    A shallow embedding of the FastAPI backend under [backend/app]:
    - [config.py]: the [Settings] object and its computed properties;
    - [api/routes/sonarr.py], [api/routes/radarr.py]: the "is this service
      configured" guards and the placeholder handlers behind them;
    - [api/routes/health.py]: the two health endpoints;
    and a model of the tag reconciliation engine that the specification
    designs and the repository does not implement yet ([Reconcile]).

    Python values are modelled as the code has them: a [str] is the string
    of its UTF-8 encoding and its length is counted in characters,
    [Optional[str]] is [option string], [int] is [Z], a raised
    [HTTPException] is the [Raise] branch of a result type, and the
    module-level [settings] singleton read by every handler is an explicit
    argument.  Calls to [logger] do not change what a handler returns; they
    are left out of the handlers and written out in [SonarrLogged] and
    [RadarrLogged]. *)

From Stdlib Require Import ZArith String Ascii DecimalString.
From stdpp Require Import base option list gmap strings.

Local Open Scope string_scope.
Local Open Scope Z_scope.

(** ** Results of a handler: a value or a raised [HTTPException] *)

(** The [detail] argument of [HTTPException] is either a string or a
    dictionary of strings in this code base. *)
Inductive Detail : Type :=
| DetailStr (msg : string)
| DetailDict (fields : list (string * string)).

Record HTTPException : Type := mkHTTPException {
  status_code : Z;
  detail : Detail
}.

Inductive Result (A : Type) : Type :=
| Ok (a : A)
| Raise (e : HTTPException).
Arguments Ok {A} a.
Arguments Raise {A} e.

(** Sequencing of handler steps: an exception raised by a step is the
    result of the whole handler. *)
#[global] Instance Result_ret : MRet Result := fun A a => Ok a.
#[global] Instance Result_bind : MBind Result := fun A B k r =>
  match r with
  | Ok a => k a
  | Raise e => Raise e
  end.

(** [fastapi.status] constants used by the routes. *)
Definition HTTP_200_OK : Z := 200.
Definition HTTP_201_CREATED : Z := 201.
Definition HTTP_404_NOT_FOUND : Z := 404.
Definition HTTP_422_UNPROCESSABLE_ENTITY : Z := 422.
Definition HTTP_503_SERVICE_UNAVAILABLE : Z := 503.

(** [raises code r]: the handler result [r] is an [HTTPException] with
    status [code]. *)
Definition raises {A : Type} (code : Z) (r : Result A) : Prop :=
  match r with
  | Ok _ => False
  | Raise e => status_code e = code
  end.

(** What a route does with a request.  FastAPI builds the body model first
    and answers 422 without calling the handler when a [Field] constraint
    fails; otherwise the handler runs and its return value is sent with the
    [status_code] of the route decorator (200 when none is given), or the
    exception it raised is sent. *)
Inductive Outcome (A : Type) : Type :=
| Responded (code : Z) (body : A)
| Raised (e : HTTPException)
| RejectedByValidation.
Arguments Responded {A} code body.
Arguments Raised {A} e.
Arguments RejectedByValidation {A}.

Definition respond {A : Type} (code : Z) (r : Result A) : Outcome A :=
  match r with
  | Ok a => Responded code a
  | Raise e => Raised e
  end.

(** HTTP status of an outcome. *)
Definition http_status {A : Type} (o : Outcome A) : Z :=
  match o with
  | Responded code _ => code
  | Raised e => status_code e
  | RejectedByValidation => HTTP_422_UNPROCESSABLE_ENTITY
  end.

(** A Python [str] is held as the UTF-8 encoding of its characters, which is
    what a string literal of this file holds.  In that encoding the bytes
    10xxxxxx (128 to 191) continue a character and every other byte starts
    one. *)
Definition starts_character (c : ascii) : bool :=
  let n := nat_of_ascii c in negb ((128 <=? n) && (n <? 192))%nat.

(** The number of characters of a text. *)
Fixpoint characters (s : string) : nat :=
  match s with
  | EmptyString => 0%nat
  | String c rest =>
      if starts_character c then S (characters rest) else characters rest
  end.

(** [len(s)] of a Python [str], which is also what the [min_length] and
    [max_length] of a Pydantic field count: characters, not bytes. *)
Definition len (s : string) : Z := Z.of_nat (characters s).

(** [str(n)] for a Python [int]. *)
Definition str_of_int (n : Z) : string := NilZero.string_of_int (Z.to_int n).

(** ** config.py *)
Module Config.

Record Settings : Type := mkSettings {
  app_name : string;
  debug : bool;
  host : string;
  port : Z;
  database_url : string;
  sonarr_url : option string;
  sonarr_api_key : option string;
  radarr_url : option string;
  radarr_api_key : option string;
  log_level : string
}.

(** Python truth value of an [Optional[str]]: [None] and [""] are falsy. *)
Definition truthy (v : option string) : bool :=
  match v with
  | None => false
  | Some "" => false
  | Some (String _ _) => true
  end.

(** [a and b] evaluates to [a] when [a] is falsy and to [b] otherwise. *)
Definition py_and (a b : option string) : option string :=
  if truthy a then b else a.

(** [bool(self.sonarr_url and self.sonarr_api_key)] *)
Definition sonarr_configured (s : Settings) : bool :=
  truthy (py_and (sonarr_url s) (sonarr_api_key s)).

(** [bool(self.radarr_url and self.radarr_api_key)] *)
Definition radarr_configured (s : Settings) : bool :=
  truthy (py_and (radarr_url s) (radarr_api_key s)).

(** A field is set when it holds a non-[None], non-empty string. *)
Definition is_set (v : option string) : Prop :=
  exists s : string, v = Some s /\ s <> "".

(** The field defaults of the class body. *)
Definition default_settings : Settings :=
  {| app_name := "MicroManagerr";
     debug := false;
     host := "0.0.0.0";
     port := 8000;
     database_url := "sqlite+aiosqlite:///./data/micromanagerr.db";
     sonarr_url := None;
     sonarr_api_key := None;
     radarr_url := None;
     radarr_api_key := None;
     log_level := "INFO" |}.

(** *** The [log_level] validator *)

(** [str.upper()] on ASCII text: the letters a to z become A to Z.  Other
    characters of ASCII are unchanged; characters outside ASCII are not
    modelled (the properties below are stated for ASCII text). *)
Definition upper_ascii (c : ascii) : ascii :=
  let n := nat_of_ascii c in
  if ((97 <=? n) && (n <=? 122))%nat then ascii_of_nat (n - 32) else c.

Fixpoint upper (s : string) : string :=
  match s with
  | EmptyString => EmptyString
  | String c rest => String (upper_ascii c) (upper rest)
  end.

(** The text has ASCII characters only. *)
Fixpoint ascii_only (s : string) : bool :=
  match s with
  | EmptyString => true
  | String c rest => (nat_of_ascii c <? 128)%nat && ascii_only rest
  end.

Definition valid_levels : list string :=
  ["DEBUG"; "INFO"; "WARNING"; "ERROR"; "CRITICAL"].

(** A validator returns the validated value or raises [ValueError]. *)
Inductive Validated (A : Type) : Type :=
| Valid (a : A)
| ValueError (msg : string).
Arguments Valid {A} a.
Arguments ValueError {A} msg.

(** [x in valid_levels] *)
Definition in_levels (x : string) : bool :=
  existsb (String.eqb x) valid_levels.

Definition validate_log_level (v : string) : Validated string :=
  let upper_v := upper v in
  if negb (in_levels upper_v)
  then ValueError
         "log_level must be one of ['DEBUG', 'INFO', 'WARNING', 'ERROR', 'CRITICAL']"
  else Valid upper_v.

(** *** The settings singleton *)

Section Singleton.
(** [Settings()] reads the process environment and the [.env] file and
    either builds the settings or fails validation; what it reads is an
    input [Env] here, and the construction itself (done by Pydantic) is a
    parameter. *)
Variable Env : Type.
Variable construct : Env -> Validated Settings.

(** [@lru_cache] on a function without arguments: one cache slot, filled by
    the first call that returns; a call that raises caches nothing. *)
Definition get_settings (env : Env) (cache : option Settings)
  : Validated Settings * option Settings :=
  match cache with
  | Some s => (Valid s, cache)
  | None =>
      match construct env with
      | Valid s => (Valid s, Some s)
      | ValueError msg => (ValueError msg, None)
      end
  end.

(** Successive calls, each in the environment of its moment. *)
Fixpoint get_settings_calls (envs : list Env) (cache : option Settings)
  : list (Validated Settings) :=
  match envs with
  | [] => []
  | env :: later =>
      let '(r, cache') := get_settings env cache in
      r :: get_settings_calls later cache'
  end.

End Singleton.
Arguments get_settings {Env} construct env cache.
Arguments get_settings_calls {Env} construct envs cache.

(** The settings with other API keys and everything else as it is. *)
Definition with_api_keys (s : Settings) (sonarr_key radarr_key : option string)
  : Settings :=
  {| app_name := app_name s;
     debug := debug s;
     host := host s;
     port := port s;
     database_url := database_url s;
     sonarr_url := sonarr_url s;
     sonarr_api_key := sonarr_key;
     radarr_url := radarr_url s;
     radarr_api_key := radarr_key;
     log_level := log_level s |}.

End Config.
Import Config.


(** ** api/routes/sonarr.py *)
Module Sonarr.

Module SonarrConnectionRequest.
Record t : Type := mk { url : string; api_key : string }.

(** [url] is required and unconstrained; [api_key] has
    [min_length=32, max_length=32]. *)
Definition validate (url api_key : string) : option t :=
  if (32 <=? len api_key) && (len api_key <=? 32)
  then Some (mk url api_key) else None.
End SonarrConnectionRequest.

Module SonarrStatusResponse.
Record t : Type := mk {
  connected : bool;
  version : option string;
  url : option string;
  error : option string
}.
End SonarrStatusResponse.

Record SonarrSeriesResponse : Type := mkSonarrSeriesResponse {
  id : Z;
  title : string;
  year : Z;
  path : string;
  monitored : bool;
  tags : list Z;
  quality_profile_id : Z
}.

Module SonarrTagResponse.
Record t : Type := mk { id : Z; label : string }.
End SonarrTagResponse.

Definition not_configured_exception : HTTPException :=
  {| status_code := HTTP_503_SERVICE_UNAVAILABLE;
     detail := DetailDict
       [("error", "Sonarr not configured");
        ("message",
         "Please set SONARR_URL and SONARR_API_KEY environment variables");
        ("docs", "See /docs for configuration instructions")] |}.

Definition require_sonarr_configured (settings : Settings) : Result unit :=
  if negb (sonarr_configured settings)
  then Raise not_configured_exception
  else Ok tt.

Definition get_sonarr_status (settings : Settings)
  : Result SonarrStatusResponse.t :=
  if negb (sonarr_configured settings)
  then Ok (SonarrStatusResponse.mk false None None
             (Some "Sonarr not configured. Set SONARR_URL and SONARR_API_KEY."))
  else Ok (SonarrStatusResponse.mk true (Some "(pending implementation)")
             (sonarr_url settings) None).

Definition test_sonarr_connection (settings : Settings)
    (connection : SonarrConnectionRequest.t)
  : Result SonarrStatusResponse.t :=
  Ok (SonarrStatusResponse.mk true (Some "(pending implementation)")
        (Some (SonarrConnectionRequest.url connection)) None).

Definition get_all_series (settings : Settings)
  : Result (list SonarrSeriesResponse) :=
  require_sonarr_configured settings ;; mret [].

Definition get_all_tags (settings : Settings)
  : Result (list SonarrTagResponse.t) :=
  require_sonarr_configured settings ;; mret [].

(** The routes: body validation, then the handler. *)
Definition post_test_connection (settings : Settings) (url api_key : string)
  : Outcome SonarrStatusResponse.t :=
  match SonarrConnectionRequest.validate url api_key with
  | None => RejectedByValidation
  | Some connection =>
      respond HTTP_200_OK (test_sonarr_connection settings connection)
  end.

Definition get_series (settings : Settings) :=
  respond HTTP_200_OK (get_all_series settings).

Definition get_status (settings : Settings) :=
  respond HTTP_200_OK (get_sonarr_status settings).

Definition get_tags (settings : Settings) :=
  respond HTTP_200_OK (get_all_tags settings).

End Sonarr.

(** ** api/routes/radarr.py *)
Module Radarr.

Module RadarrConnectionRequest.
Record t : Type := mk { url : string; api_key : string }.

Definition validate (url api_key : string) : option t :=
  if (32 <=? len api_key) && (len api_key <=? 32)
  then Some (mk url api_key) else None.
End RadarrConnectionRequest.

Module RadarrStatusResponse.
Record t : Type := mk {
  connected : bool;
  version : option string;
  url : option string;
  error : option string
}.
End RadarrStatusResponse.

Record RadarrMovieResponse : Type := mkRadarrMovieResponse {
  id : Z;
  title : string;
  year : Z;
  path : string;
  monitored : bool;
  tags : list Z;
  quality_profile_id : Z;
  has_file : bool;
  runtime : Z
}.

Module RadarrTagResponse.
Record t : Type := mk { id : Z; label : string }.
End RadarrTagResponse.

Module RadarrTagCreateRequest.
Record t : Type := mk { label : string }.

(** [label] has [min_length=1, max_length=50]. *)
Definition validate (label : string) : option t :=
  if (1 <=? len label) && (len label <=? 50)
  then Some (mk label) else None.
End RadarrTagCreateRequest.

Definition not_configured_exception : HTTPException :=
  {| status_code := HTTP_503_SERVICE_UNAVAILABLE;
     detail := DetailDict
       [("error", "Radarr not configured");
        ("message",
         "Please set RADARR_URL and RADARR_API_KEY environment variables");
        ("docs", "See /docs for configuration instructions")] |}.

Definition require_radarr_configured (settings : Settings) : Result unit :=
  if negb (radarr_configured settings)
  then Raise not_configured_exception
  else Ok tt.

Definition get_radarr_status (settings : Settings)
  : Result RadarrStatusResponse.t :=
  if negb (radarr_configured settings)
  then Ok (RadarrStatusResponse.mk false None None
             (Some "Radarr not configured. Set RADARR_URL and RADARR_API_KEY."))
  else Ok (RadarrStatusResponse.mk true (Some "(pending implementation)")
             (radarr_url settings) None).

Definition test_radarr_connection (settings : Settings)
    (connection : RadarrConnectionRequest.t)
  : Result RadarrStatusResponse.t :=
  Ok (RadarrStatusResponse.mk true (Some "(pending implementation)")
        (Some (RadarrConnectionRequest.url connection)) None).

Definition get_all_movies (settings : Settings)
  : Result (list RadarrMovieResponse) :=
  require_radarr_configured settings ;; mret [].

Definition movie_not_found (movie_id : Z) : HTTPException :=
  {| status_code := HTTP_404_NOT_FOUND;
     detail := DetailStr
       ("Movie " +:+ str_of_int movie_id
          +:+ " not found (endpoint pending implementation)") |}.

Definition get_movie (settings : Settings) (movie_id : Z)
  : Result RadarrMovieResponse :=
  require_radarr_configured settings ;; Raise (movie_not_found movie_id).

Definition get_all_tags (settings : Settings)
  : Result (list RadarrTagResponse.t) :=
  require_radarr_configured settings ;; mret [].

Definition create_tag (settings : Settings) (tag : RadarrTagCreateRequest.t)
  : Result RadarrTagResponse.t :=
  require_radarr_configured settings ;;
  mret (RadarrTagResponse.mk 999 (RadarrTagCreateRequest.label tag)).

Definition update_movie_tags (settings : Settings) (movie_id : Z)
    (tag_ids : list Z) : Result RadarrMovieResponse :=
  require_radarr_configured settings ;; Raise (movie_not_found movie_id).

(** The routes: body validation, then the handler. *)
Definition post_test_connection (settings : Settings) (url api_key : string)
  : Outcome RadarrStatusResponse.t :=
  match RadarrConnectionRequest.validate url api_key with
  | None => RejectedByValidation
  | Some connection =>
      respond HTTP_200_OK (test_radarr_connection settings connection)
  end.

Definition get_movies (settings : Settings) :=
  respond HTTP_200_OK (get_all_movies settings).

Definition get_status (settings : Settings) :=
  respond HTTP_200_OK (get_radarr_status settings).

Definition get_tags (settings : Settings) :=
  respond HTTP_200_OK (get_all_tags settings).

Definition get_movies_id (settings : Settings) (movie_id : Z) :=
  respond HTTP_200_OK (get_movie settings movie_id).

Definition post_tags (settings : Settings) (label : string)
  : Outcome RadarrTagResponse.t :=
  match RadarrTagCreateRequest.validate label with
  | None => RejectedByValidation
  | Some tag => respond HTTP_201_CREATED (create_tag settings tag)
  end.

Definition put_movies_id_tags (settings : Settings) (movie_id : Z)
    (tag_ids : list Z) :=
  respond HTTP_200_OK (update_movie_tags settings movie_id tag_ids).

End Radarr.

(** ** api/routes/health.py *)
Module Health.

(** Values of the [Dict[str, Any]] fields of the detailed response. *)
#[local] Unset Elimination Schemes.
Inductive Any : Type :=
| ANone
| ABool (b : bool)
| AStr (s : string)
| ADict (fields : list (string * Any)).
#[local] Set Elimination Schemes.

(** [app.__version__] *)
Definition __version__ : string := "0.1.0".

Module HealthResponse.
Record t : Type := mk {
  status : string;
  timestamp : string;
  version : string
}.
End HealthResponse.

Module DetailedHealthResponse.
Record t : Type := mk {
  status : string;
  timestamp : string;
  version : string;
  services : list (string * Any);
  config : list (string * Any)
}.
End DetailedHealthResponse.

(** [x if c else None] for an [Optional[str]] value [x]. *)
Definition opt_any (v : option string) : Any :=
  match v with
  | Some s => AStr s
  | None => ANone
  end.

(** [now] stands for [datetime.now(timezone.utc).isoformat()], the one
    input the handlers read from outside the settings. *)
Definition health_check (settings : Settings) (now : string)
  : Result HealthResponse.t :=
  Ok (HealthResponse.mk "healthy" now __version__).

Definition detailed_health_check (settings : Settings) (now : string)
  : Result DetailedHealthResponse.t :=
  let services :=
    [("database",
      ADict [("status", AStr "not_implemented");
             ("note", AStr "Database health check will be added in Phase 1")]);
     ("sonarr",
      ADict [("status",
              AStr (if sonarr_configured settings
                    then "configured" else "not_configured"));
             ("url",
              if sonarr_configured settings
              then opt_any (sonarr_url settings) else ANone)]);
     ("radarr",
      ADict [("status",
              AStr (if radarr_configured settings
                    then "configured" else "not_configured"));
             ("url",
              if radarr_configured settings
              then opt_any (radarr_url settings) else ANone)])] in
  let overall_status := "healthy" in
  Ok (DetailedHealthResponse.mk overall_status now __version__ services
        [("debug", ABool (debug settings));
         ("log_level", AStr (log_level settings))]).

(** [d.get(key)] on a dictionary literal (keys are distinct there). *)
Fixpoint dict_get (key : string) (d : list (string * Any)) : option Any :=
  match d with
  | [] => None
  | (k, v) :: rest => if String.eqb k key then Some v else dict_get key rest
  end.

(** [services[name][field]] of a detailed response. *)
Definition service_field (body : DetailedHealthResponse.t)
    (name field : string) : option Any :=
  match dict_get name (DetailedHealthResponse.services body) with
  | Some (ADict fields) => dict_get field fields
  | _ => None
  end.

Definition get_health (settings : Settings) (now : string) :=
  respond HTTP_200_OK (health_check settings now).

Definition get_health_detailed (settings : Settings) (now : string) :=
  respond HTTP_200_OK (detailed_health_check settings now).

End Health.

(** ** The handlers with their log records

    The handlers above leave the calls to [logger] out.  Here the same
    handlers are written with them: a handler returns the records its
    module logger created, in order, beside its result. *)
Module Logging.

Inductive Level : Type :=
| DEBUG
| INFO
| WARNING
| ERROR
| CRITICAL.

Record LogRecord : Type := mkLogRecord {
  levelname : Level;
  message : string
}.

(** [logging.DEBUG], ..., [logging.CRITICAL] *)
Definition levelno (l : Level) : Z :=
  match l with
  | DEBUG => 10
  | INFO => 20
  | WARNING => 30
  | ERROR => 40
  | CRITICAL => 50
  end.

(** The level [getattr(logging, name)] yields for the name of a level. *)
Definition level_named (name : string) : option Level :=
  if String.eqb name "DEBUG" then Some DEBUG
  else if String.eqb name "INFO" then Some INFO
  else if String.eqb name "WARNING" then Some WARNING
  else if String.eqb name "ERROR" then Some ERROR
  else if String.eqb name "CRITICAL" then Some CRITICAL
  else None.

(** [logger.isEnabledFor(level)].  At import [main.py] installs
    [settings.log_level] as the threshold of the root logger, and the
    module loggers have no level of their own: a call creates a record
    when its level is not below that threshold.  (With a [log_level] that
    names no level the import fails and nothing runs; validated settings
    always name one.) *)
Definition isEnabledFor (settings : Settings) (level : Level) : bool :=
  match level_named (log_level settings) with
  | Some threshold => levelno threshold <=? levelno level
  | None => false
  end.

(** The records one logger call creates: one, or none below the
    threshold. *)
Definition emit (settings : Settings) (level : Level) (msg : string)
  : list LogRecord :=
  if isEnabledFor settings level then [mkLogRecord level msg] else [].

Definition Logged (A : Type) : Type := list LogRecord * Result A.

#[global] Instance Logged_ret : MRet Logged := fun A a => ([], Ok a).
#[global] Instance Logged_bind : MBind Logged := fun A B k m =>
  match m with
  | (l1, Ok a) => let '(l2, r) := k a in ((l1 ++ l2)%list, r)
  | (l1, Raise e) => (l1, Raise e)
  end.

(** [logger.info(msg)] and [logger.warning(msg)] *)
Definition info (settings : Settings) (msg : string) : Logged unit :=
  (emit settings INFO msg, Ok tt).
Definition warning (settings : Settings) (msg : string) : Logged unit :=
  (emit settings WARNING msg, Ok tt).
Definition raise {A : Type} (e : HTTPException) : Logged A := ([], Raise e).

(** [str(b)] and [str(v)] as an f-string prints a [bool] and an
    [Optional[str]]. *)
Definition str_of_bool (b : bool) : string := if b then "True" else "False".
Definition str_of_opt (v : option string) : string :=
  match v with
  | Some s => s
  | None => "None"
  end.

(** [str(tag_ids)] of a [List[int]]. *)
Fixpoint join_ints (l : list Z) : string :=
  match l with
  | [] => ""
  | [n] => str_of_int n
  | n :: rest => str_of_int n +:+ ", " +:+ join_ints rest
  end.
Definition str_of_ints (l : list Z) : string := "[" +:+ join_ints l +:+ "]".

(** The call was refused with 503. *)
Definition refused {A : Type} (r : Result A) : bool :=
  match r with
  | Ok _ => false
  | Raise e => status_code e =? HTTP_503_SERVICE_UNAVAILABLE
  end.

(** A handler call made one logger call, a warning when it was refused
    with 503 and an information otherwise, whose record was created or not
    after the threshold; and its result is [plain]. *)
Definition logs_one_call {A : Type} (settings : Settings) (h : Logged A)
    (plain : Result A) : Prop :=
  snd h = plain /\
  exists msg : string,
    fst h = emit settings (if refused plain then WARNING else INFO) msg.

Definition is_warning (rec : LogRecord) : bool :=
  match levelname rec with
  | WARNING => true
  | _ => false
  end.

Definition is_info (rec : LogRecord) : bool :=
  match levelname rec with
  | INFO => true
  | _ => false
  end.

End Logging.

Module SonarrLogged.
Import Logging.

Definition require_sonarr_configured (settings : Settings) : Logged unit :=
  if negb (sonarr_configured settings)
  then warning settings "Sonarr endpoint called but Sonarr is not configured" ;;
       raise Sonarr.not_configured_exception
  else mret tt.

Definition test_sonarr_connection (settings : Settings)
    (connection : Sonarr.SonarrConnectionRequest.t)
  : Logged Sonarr.SonarrStatusResponse.t :=
  info settings ("Test connection requested for: "
          +:+ Sonarr.SonarrConnectionRequest.url connection) ;;
  mret (Sonarr.SonarrStatusResponse.mk true (Some "(pending implementation)")
          (Some (Sonarr.SonarrConnectionRequest.url connection)) None).

Definition get_all_series (settings : Settings)
  : Logged (list Sonarr.SonarrSeriesResponse) :=
  require_sonarr_configured settings ;;
  info settings "Fetching all series from Sonarr" ;;
  mret [].

Definition get_all_tags (settings : Settings)
  : Logged (list Sonarr.SonarrTagResponse.t) :=
  require_sonarr_configured settings ;;
  info settings "Fetching all tags from Sonarr" ;;
  mret [].

End SonarrLogged.

Module RadarrLogged.
Import Logging.

Definition require_radarr_configured (settings : Settings) : Logged unit :=
  if negb (radarr_configured settings)
  then warning settings "Radarr endpoint called but Radarr is not configured" ;;
       raise Radarr.not_configured_exception
  else mret tt.

Definition test_radarr_connection (settings : Settings)
    (connection : Radarr.RadarrConnectionRequest.t)
  : Logged Radarr.RadarrStatusResponse.t :=
  info settings ("Test connection requested for: "
          +:+ Radarr.RadarrConnectionRequest.url connection) ;;
  mret (Radarr.RadarrStatusResponse.mk true (Some "(pending implementation)")
          (Some (Radarr.RadarrConnectionRequest.url connection)) None).

Definition get_all_movies (settings : Settings)
  : Logged (list Radarr.RadarrMovieResponse) :=
  require_radarr_configured settings ;;
  info settings "Fetching all movies from Radarr" ;;
  mret [].

Definition get_movie (settings : Settings) (movie_id : Z)
  : Logged Radarr.RadarrMovieResponse :=
  require_radarr_configured settings ;;
  info settings ("Fetching movie " +:+ str_of_int movie_id +:+ " from Radarr") ;;
  raise (Radarr.movie_not_found movie_id).

Definition get_all_tags (settings : Settings)
  : Logged (list Radarr.RadarrTagResponse.t) :=
  require_radarr_configured settings ;;
  info settings "Fetching all tags from Radarr" ;;
  mret [].

Definition create_tag (settings : Settings)
    (tag : Radarr.RadarrTagCreateRequest.t)
  : Logged Radarr.RadarrTagResponse.t :=
  require_radarr_configured settings ;;
  info settings ("Creating tag in Radarr: " +:+ Radarr.RadarrTagCreateRequest.label tag) ;;
  mret (Radarr.RadarrTagResponse.mk 999 (Radarr.RadarrTagCreateRequest.label tag)).

Definition update_movie_tags (settings : Settings) (movie_id : Z)
    (tag_ids : list Z) : Logged Radarr.RadarrMovieResponse :=
  require_radarr_configured settings ;;
  info settings ("Updating tags on movie " +:+ str_of_int movie_id +:+ ": "
          +:+ str_of_ints tag_ids) ;;
  raise (Radarr.movie_not_found movie_id).

End RadarrLogged.

(** ** main.py *)
Module Main.
Import Logging.

(** The numeric value of the level names of the [logging] module, which
    [getattr(logging, settings.log_level)] reads at import. *)
Definition logging_level (name : string) : option Z :=
  if String.eqb name "DEBUG" then Some 10
  else if String.eqb name "INFO" then Some 20
  else if String.eqb name "WARNING" then Some 30
  else if String.eqb name "ERROR" then Some 40
  else if String.eqb name "CRITICAL" then Some 50
  else None.

(** The records [lifespan] creates before the [yield]: five logger calls,
    each passed through the threshold. *)
Definition lifespan_startup (settings : Settings) : list LogRecord :=
  (emit settings INFO
     ("Starting " +:+ app_name settings +:+ " v" +:+ Health.__version__)
   ++ emit settings INFO ("Debug mode: " +:+ str_of_bool (debug settings))
   ++ emit settings INFO ("Log level: " +:+ log_level settings)
   ++ (if sonarr_configured settings
       then emit settings INFO
              ("Sonarr configured at: " +:+ str_of_opt (sonarr_url settings))
       else emit settings WARNING
              "Sonarr not configured - set SONARR_URL and SONARR_API_KEY")
   ++ (if radarr_configured settings
       then emit settings INFO
              ("Radarr configured at: " +:+ str_of_opt (radarr_url settings))
       else emit settings WARNING
              "Radarr not configured - set RADARR_URL and RADARR_API_KEY"))%list.

(** The record [lifespan] creates after the [yield]. *)
Definition lifespan_shutdown (settings : Settings) : list LogRecord :=
  emit settings INFO ("Shutting down " +:+ app_name settings).

(** The arguments of [FastAPI(...)] that depend on the settings. *)
Definition docs_url (settings : Settings) : string :=
  if debug settings then "/docs" else "/docs".
Definition redoc_url (settings : Settings) : string :=
  if debug settings then "/redoc" else "/redoc".

(** The root endpoint. *)
Definition root (settings : Settings) : list (string * string) :=
  [("name", app_name settings);
   ("version", Health.__version__);
   ("docs", "/docs");
   ("health", "/health")].

(** The paths of the routes of [health.router], included without prefix. *)
Definition health_paths : list string := ["/health"; "/health/detailed"].

(** [root()[key]] *)
Fixpoint root_get (key : string) (d : list (string * string))
  : option string :=
  match d with
  | [] => None
  | (k, v) :: rest => if String.eqb k key then Some v else root_get key rest
  end.

End Main.

(** ** Tag reconciliation: the target design of the specification

    The repository has no reconciliation code: the routes above are
    placeholders and the tag manager exists only as TODO comments.  The
    definitions of this module are therefore written from sections 3, 4.1
    and 4.2 of the specification, for one caller at a time (the per-item
    lock of section 5 and the transport retries are outside this model). *)
Module Reconcile.

(** Modelled from the spec: the error taxonomy of section 7 that the
    client operations of section 4.1 fail with. *)
Inductive ClientError : Type :=
| Unreachable
| AuthFailed
| NotFound
| Conflict.

(** Modelled from the spec: the [DetectedAttribute] of section 3. *)
Inductive DetectedAttribute : Type :=
| HDR10
| DolbyVision
| IMAX
| ExtendedEdition.

(** Modelled from the spec: the additive and authoritative policies. *)
Inductive Policy : Type :=
| Additive
| Authoritative.

(** Modelled from the spec: the [Item] of section 3, with the
    version/ETag-like field of section 4.1. *)
Record Item : Type := mkItem {
  item_id : Z;
  current_tags : gset Z;
  runtime_minutes : option Z;
  version : Z
}.

(** Modelled from the spec: the [Tag] of section 3. *)
Record Tag : Type := mkTag {
  tag_id : Z;
  label : string
}.

(** Modelled from the spec: the requests a client sends to the remote
    system, one per operation of section 4.1 ([createTag] lists the tags
    and posts the new one). *)
Inductive Call : Type :=
| GetItem (id : Z)
| ListTags
| PostTag (label : string)
| PutItem (id : Z) (tag_ids : gset Z).

(** The request of [setItemTags]. *)
Definition is_put (c : Call) : bool :=
  match c with
  | PutItem _ _ => true
  | _ => false
  end.

(** The requests that change the remote: creating a tag and writing an
    item. *)
Definition is_mutating (c : Call) : bool :=
  match c with
  | PostTag _ | PutItem _ _ => true
  | GetItem _ | ListTags => false
  end.

(** Modelled from the spec: the remote tag store of section 4.1, which the
    repository does not implement.  [tags] maps each label to its id
    (labels are unique per remote instance), [next_tag_id] is the id the
    remote assigns to the next created tag, and [calls] records the
    requests issued so far, latest first. *)
Record Remote : Type := mkRemote {
  reachable : bool;
  authorized : bool;
  items : gmap Z Item;
  tags : gmap string Z;
  next_tag_id : Z;
  calls : list Call
}.

(** How many [setItemTags] requests, and how many mutating requests, were
    issued so far. *)
Definition put_calls (r : Remote) : nat := length (filter is_put (calls r)).
Definition mutating_calls (r : Remote) : nat :=
  length (filter is_mutating (calls r)).

(** Modelled from the spec: a client operation runs against the remote
    and either fails with an error or returns. *)
Definition Client (A : Type) : Type := Remote -> (ClientError + A) * Remote.

#[global] Instance Client_ret : MRet Client := fun A a r => (inr a, r).
#[global] Instance Client_bind : MBind Client := fun A B k m r =>
  match m r with
  | (inl e, r') => (inl e, r')
  | (inr a, r') => k a r'
  end.

Definition fail {A : Type} (e : ClientError) : Client A :=
  fun r => (inl e, r).
Definition get_remote : Client Remote := fun r => (inr r, r).
Definition set_remote (r' : Remote) : Client unit := fun _ => (inr tt, r').

(** The remote after one more request was issued. *)
Definition record_call (c : Call) (r : Remote) : Remote :=
  mkRemote (reachable r) (authorized r) (items r) (tags r)
    (next_tag_id r) (c :: calls r).

(** Modelled from the spec: one request; it is recorded, and fails with
    [Unreachable] on a transport failure or [AuthFailed] on bad
    credentials. *)
Definition request (c : Call) : Client unit := fun r =>
  let r' := record_call c r in
  if negb (reachable r) then (inl Unreachable, r')
  else if negb (authorized r) then (inl AuthFailed, r')
  else (inr tt, r').

Section Engine.
(** Modelled from the spec: the configuration structure of section 9,
    the tag policy and the table from detected attributes to labels,
    and the label canonicalization of section 3. *)
Variable policy : Policy.
Variable label_of : DetectedAttribute -> string.
Variable canonicalize : string -> string.

(** Modelled from the spec: [listTags] of section 4.1. *)
Definition listTags : Client (gmap string Z) :=
  request ListTags ;; r ← get_remote; mret (tags r).

(** Modelled from the spec: [createTag] of section 4.1, the
    listTags-then-create-if-absent protocol on the canonicalized label;
    the remote rejects an empty label with [Conflict]. *)
Definition createTag (l : string) : Client Tag :=
  let l' := canonicalize l in
  known ← listTags;
  match known !! l' with
  | Some id => mret (mkTag id l')
  | None =>
      request (PostTag l') ;;
      if decide (l' = "") then fail Conflict
      else
        r ← get_remote;
        set_remote (mkRemote (reachable r) (authorized r) (items r)
                      (<[l' := next_tag_id r]> (tags r))
                      (next_tag_id r + 1) (calls r)) ;;
        mret (mkTag (next_tag_id r) l')
  end.

(** Modelled from the spec: [getItem] of section 4.1. *)
Definition getItem (id : Z) : Client Item :=
  request (GetItem id) ;;
  r ← get_remote;
  match items r !! id with
  | Some it => mret it
  | None => fail NotFound
  end.

(** Modelled from the spec: [setItemTags] of section 4.1.  The caller
    passes the item it read under [id]; the write replaces the tag set
    of that item and fails with [Conflict] when the remote item changed
    since the read. *)
Definition setItemTags (id : Z) (it : Item) (tag_ids : gset Z)
  : Client unit :=
  request (PutItem id tag_ids) ;;
  r ← get_remote;
  match items r !! id with
  | None => fail NotFound
  | Some cur =>
      if decide (version cur = version it) then
        set_remote (mkRemote (reachable r) (authorized r)
                      (<[id := mkItem (item_id it) tag_ids
                                 (runtime_minutes it) (version it + 1)]>
                         (items r))
                      (tags r) (next_tag_id r) (calls r))
      else fail Conflict
  end.

(** Modelled from the spec: step 3 of section 4.2; every detected
    attribute is resolved to a tag id, creating the tag when it is
    absent. *)
Fixpoint resolve_all (detected : list DetectedAttribute)
  : Client (gset Z) :=
  match detected with
  | [] => mret ∅
  | a :: rest =>
      t ← createTag (label_of a);
      ids ← resolve_all rest;
      mret ({[tag_id t]} ∪ ids)
  end.

(** Modelled from the spec: step 4 of section 4.2, the desired tag set
    under the configured policy. *)
Definition desired_tags (current resolved : gset Z) : gset Z :=
  match policy with
  | Additive => current ∪ resolved
  | Authoritative => resolved
  end.

(** Modelled from the spec: the [ReconciliationResult] of section 3,
    with the diff (tags added, tags removed) of an applied run. *)
Inductive ReconciliationResult : Type :=
| Applied (added removed : gset Z)
| NoopAlreadyConverged
| Failed (e : ClientError).

(** Modelled from the spec: the algorithm of section 4.2, steps 1 to 6,
    for the item [id] and the attributes the detector reported. *)
Definition reconcile_steps (id : Z) (detected : list DetectedAttribute)
  : Client ReconciliationResult :=
  it ← getItem id;
  resolved ← resolve_all detected;
  let desired := desired_tags (current_tags it) resolved in
  if decide (desired = current_tags it) then mret NoopAlreadyConverged
  else
    setItemTags id it desired ;;
    mret (Applied (desired ∖ current_tags it) (current_tags it ∖ desired)).

(** Modelled from the spec: [reconcile], the outcome of those steps; an
    error of any step is reported as [Failed]. *)
Definition reconcile (id : Z) (detected : list DetectedAttribute)
    (r : Remote) : ReconciliationResult * Remote :=
  match reconcile_steps id detected r with
  | (inl e, r') => (Failed e, r')
  | (inr res, r') => (res, r')
  end.

(** The ids the tag list [known] holds for the detected attributes. *)
Fixpoint known_ids (known : gmap string Z)
    (detected : list DetectedAttribute) : gset Z :=
  match detected with
  | [] => ∅
  | a :: rest =>
      match known !! canonicalize (label_of a) with
      | Some id => {[id]} ∪ known_ids known rest
      | None => known_ids known rest
      end
  end.

(** The store of the remote: everything but the record of calls. *)
Definition same_store (r r' : Remote) : Prop :=
  reachable r' = reachable r /\ authorized r' = authorized r /\
  items r' = items r /\ tags r' = tags r /\
  next_tag_id r' = next_tag_id r.

(** Every tag id an item carries was assigned by the remote. *)
Definition tags_assigned (r : Remote) : Prop :=
  forall (id : Z) (it : Item) (t : Z),
    items r !! id = Some it -> t ∈ current_tags it -> t < next_tag_id r.

(** Every tag the remote lists has an id below the next one it assigns. *)
Definition tags_in_range (r : Remote) : Prop :=
  forall (l : string) (t : Z), tags r !! l = Some t -> t < next_tag_id r.

(** The remote refers only to tag ids it has assigned. *)
Definition consistent (r : Remote) : Prop :=
  tags_assigned r /\ tags_in_range r.

End Engine.

(** The labels named in the documentation of the tag routes. *)
Definition default_label_of (a : DetectedAttribute) : string :=
  match a with
  | HDR10 => "HDR"
  | DolbyVision => "Dolby-Vision"
  | IMAX => "IMAX"
  | ExtendedEdition => "Extended-Edition"
  end.

End Reconcile.

(** ** Statements compared with the code

    The claims about tag canonicalization and item lookup speak of things
    the routes do not have (a canonical form of labels, a remote library);
    they are written down here in the words of the specification. *)
Module Stated.

(** Lower-casing of the ASCII letters of a label. *)
Definition lower_ascii (c : ascii) : ascii :=
  let n := nat_of_ascii c in
  if ((65 <=? n) && (n <=? 90))%nat then ascii_of_nat (n + 32) else c.

Fixpoint casefold (s : string) : string :=
  match s with
  | EmptyString => EmptyString
  | String c rest => String (lower_ascii c) (casefold rest)
  end.

(** Two labels differ only in case. *)
Definition same_up_to_case (a b : string) : Prop := casefold a = casefold b.

(** Tag creation returns the canonical form [canon] of the label it is
    given, whenever it accepts the label. *)
Definition create_tag_canonicalizes (canon : string -> string) : Prop :=
  forall (s : Settings) (label : string),
    radarr_configured s = true ->
    1 <= len label <= 50 ->
    exists id : Z,
      Radarr.post_tags s label =
        Responded HTTP_201_CREATED (Radarr.RadarrTagResponse.mk id (canon label)).

(** [getItem] against a remote library [remote]: the item when the remote
    has it, [NotFound] otherwise. *)
Definition get_movie_follows_remote
    (remote : Z -> option Radarr.RadarrMovieResponse) : Prop :=
  forall (s : Settings) (movie_id : Z),
    radarr_configured s = true ->
    match remote movie_id with
    | Some m => Radarr.get_movie s movie_id = Ok m
    | None => raises HTTP_404_NOT_FOUND (Radarr.get_movie s movie_id)
    end.

End Stated.

(** ** Sample values: the addresses and the movie of the schema examples *)
Module Sample.

Definition api_key : string := "0123456789abcdef0123456789abcdef".

Definition configured : Settings :=
  {| app_name := "MicroManagerr";
     debug := false;
     host := "0.0.0.0";
     port := 8000;
     database_url := "sqlite+aiosqlite:///./data/micromanagerr.db";
     sonarr_url := Some "http://localhost:8989";
     sonarr_api_key := Some api_key;
     radarr_url := Some "http://localhost:7878";
     radarr_api_key := Some api_key;
     log_level := "INFO" |}.

Definition the_matrix : Radarr.RadarrMovieResponse :=
  {| Radarr.id := 1;
     Radarr.title := "The Matrix";
     Radarr.year := 1999;
     Radarr.path := "/movies/The Matrix (1999)";
     Radarr.monitored := true;
     Radarr.tags := [1; 3];
     Radarr.quality_profile_id := 4;
     Radarr.has_file := true;
     Radarr.runtime := 136 |}.

(** A remote library holding that one movie. *)
Definition library (movie_id : Z) : option Radarr.RadarrMovieResponse :=
  if movie_id =? 1 then Some the_matrix else None.

(** The remote of the additive example: one item tagged 1 and 2, two
    tags made by hand, and no tag yet for any detected attribute. *)
Definition remote : Reconcile.Remote :=
  Reconcile.mkRemote true true
    {[ 7 := Reconcile.mkItem 7 {[1; 2]} None 0 ]}
    {[ "favorite" := 1; "4k" := 2 ]}
    3 [].

(** One additive reconciliation of item 7 after the detector reported
    HDR10, with labels canonicalized by lower-casing. *)
Definition run (r : Reconcile.Remote)
  : Reconcile.ReconciliationResult * Reconcile.Remote :=
  Reconcile.reconcile Reconcile.Additive Reconcile.default_label_of
    Stated.casefold 7 [Reconcile.HDR10] r.

(** A settings constructor that reads only [LOG_LEVEL] from the
    environment and takes the defaults for every other field. *)
Definition settings_of_log_level (env : string) : Validated Settings :=
  match validate_log_level env with
  | Valid l =>
      Valid {| app_name := "MicroManagerr";
               debug := false;
               host := "0.0.0.0";
               port := 8000;
               database_url := "sqlite+aiosqlite:///./data/micromanagerr.db";
               sonarr_url := None;
               sonarr_api_key := None;
               radarr_url := None;
               radarr_api_key := None;
               log_level := l |}
  | ValueError msg => ValueError msg
  end.

(** The settings with another log level. *)
Definition settings_with_log_level (s : Settings) (level : string)
  : Settings :=
  {| app_name := app_name s;
     debug := debug s;
     host := host s;
     port := port s;
     database_url := database_url s;
     sonarr_url := sonarr_url s;
     sonarr_api_key := sonarr_api_key s;
     radarr_url := radarr_url s;
     radarr_api_key := radarr_api_key s;
     log_level := level |}.

End Sample.

(** * Properties *)

(** Lengths are counted in characters: a key of 16 two-byte characters is
    not a key of length 32, and a label of 20 three-byte characters is a
    label of length 20. *)
Lemma len_counts_characters :
  len "ıııııııııııııııı" = 16 /\
  String.length "ıııııııııııııııı" = 32%nat /\
  len "高動態範圍影像杜比視界超高畫質版本的標籤" = 20 /\
  String.length "高動態範圍影像杜比視界超高畫質版本的標籤" = 60%nat /\
  Sonarr.post_test_connection default_settings "http://sonarr:8989"
    "ıııııııııııııııı" = RejectedByValidation /\
  Radarr.post_test_connection default_settings "http://radarr:7878"
    "ıııııııııııııııı" = RejectedByValidation /\
  Radarr.post_tags Sample.configured "高動態範圍影像杜比視界超高畫質版本的標籤"
    = Responded HTTP_201_CREATED
        (Radarr.RadarrTagResponse.mk 999 "高動態範圍影像杜比視界超高畫質版本的標籤").
Proof. by vm_compute. Qed.

Lemma truthy_is_set (v : option string) : truthy v = true <-> is_set v.
Proof.
  unfold is_set; split.
  - destruct v as [[|c s]|]; simpl; intros H; try discriminate.
    exists (String c s); split; [reflexivity | discriminate].
  - intros (s & -> & Hs). destruct s; [contradiction | reflexivity].
Qed.

Lemma truthy_py_and (a b : option string) :
  truthy (py_and a b) = truthy a && truthy b.
Proof.
  unfold py_and. destruct (truthy a) eqn:Ha; simpl; [reflexivity | exact Ha].
Qed.

Lemma configured_andb (a b : option string) :
  truthy (py_and a b) = true <-> is_set a /\ is_set b.
Proof.
  rewrite truthy_py_and, andb_true_iff, !truthy_is_set. reflexivity.
Qed.

Lemma not_set_cases (v : option string) :
  ~ is_set v <-> v = None \/ v = Some "".
Proof.
  rewrite <- truthy_is_set.
  destruct v as [[|c s]|]; simpl; split; intros H; auto.
  - exfalso; apply H; reflexivity.
  - destruct H; discriminate.
Qed.

(** ** The settings properties *)

(** C9: [settings.sonarr_configured] (respectively
    [settings.radarr_configured]) is [True] if and only if both the URL and
    the API key of the service are set to non-[None], non-empty strings; an
    empty-string URL or key counts as not configured. *)
Theorem configured_iff_url_and_key_set (s : Settings) :
  (sonarr_configured s = true <->
     is_set (sonarr_url s) /\ is_set (sonarr_api_key s)) /\
  (radarr_configured s = true <->
     is_set (radarr_url s) /\ is_set (radarr_api_key s)) /\
  (sonarr_url s = Some "" \/ sonarr_api_key s = Some "" ->
     sonarr_configured s = false) /\
  (radarr_url s = Some "" \/ radarr_api_key s = Some "" ->
     radarr_configured s = false).
Proof.
  unfold sonarr_configured, radarr_configured.
  split; [apply configured_andb |].
  split; [apply configured_andb |].
  split; rewrite truthy_py_and;
    (intros [-> | ->]; simpl; [reflexivity | apply andb_false_r]).
Qed.

(** ** The guards *)

Lemma require_sonarr_configured_spec (s : Settings) :
  Sonarr.require_sonarr_configured s =
    if sonarr_configured s then Ok tt
    else Raise Sonarr.not_configured_exception.
Proof.
  unfold Sonarr.require_sonarr_configured.
  destruct (sonarr_configured s); reflexivity.
Qed.

Lemma require_radarr_configured_spec (s : Settings) :
  Radarr.require_radarr_configured s =
    if radarr_configured s then Ok tt
    else Raise Radarr.not_configured_exception.
Proof.
  unfold Radarr.require_radarr_configured.
  destruct (radarr_configured s); reflexivity.
Qed.

(** A handler that starts with the Sonarr guard and then either returns or
    raises something other than 503. *)
Lemma sonarr_guarded_503 {A : Type} (s : Settings) (rest : Result A) :
  ~ raises HTTP_503_SERVICE_UNAVAILABLE rest ->
  raises HTTP_503_SERVICE_UNAVAILABLE
    (Sonarr.require_sonarr_configured s ;; rest)
  <-> sonarr_configured s = false.
Proof.
  intros Hrest. rewrite require_sonarr_configured_spec.
  destruct (sonarr_configured s); simpl; split; intros H;
    try reflexivity; try discriminate; contradiction.
Qed.

Lemma radarr_guarded_503 {A : Type} (s : Settings) (rest : Result A) :
  ~ raises HTTP_503_SERVICE_UNAVAILABLE rest ->
  raises HTTP_503_SERVICE_UNAVAILABLE
    (Radarr.require_radarr_configured s ;; rest)
  <-> radarr_configured s = false.
Proof.
  intros Hrest. rewrite require_radarr_configured_spec.
  destruct (radarr_configured s); simpl; split; intros H;
    try reflexivity; try discriminate; contradiction.
Qed.

Lemma not_configured_iff_unset (a b : option string) :
  truthy (py_and a b) = false <-> ~ is_set a \/ ~ is_set b.
Proof.
  rewrite truthy_py_and, andb_false_iff, <- !truthy_is_set.
  destruct (truthy a), (truthy b); split; intros [H|H];
    try discriminate; auto; exfalso; apply H; reflexivity.
Qed.

(** C1: on every library endpoint the guard raises HTTP 503 exactly when
    the service is not configured, that is when its URL or its API key is
    unset; when the service is configured the guard returns and the handler
    goes on (its result is then the result of the code after the guard). *)
Theorem guard_raises_503_iff_not_configured
    (s : Settings) (movie_id : Z) (tag : Radarr.RadarrTagCreateRequest.t)
    (tag_ids : list Z) :
  (* the two guards *)
  (raises HTTP_503_SERVICE_UNAVAILABLE (Sonarr.require_sonarr_configured s)
     <-> sonarr_configured s = false) /\
  (raises HTTP_503_SERVICE_UNAVAILABLE (Radarr.require_radarr_configured s)
     <-> radarr_configured s = false) /\
  (sonarr_configured s = false
     <-> ~ is_set (sonarr_url s) \/ ~ is_set (sonarr_api_key s)) /\
  (radarr_configured s = false
     <-> ~ is_set (radarr_url s) \/ ~ is_set (radarr_api_key s)) /\
  Sonarr.require_sonarr_configured s =
    (if sonarr_configured s then Ok tt
     else Raise Sonarr.not_configured_exception) /\
  Radarr.require_radarr_configured s =
    (if radarr_configured s then Ok tt
     else Raise Radarr.not_configured_exception) /\
  (* the six guarded handlers *)
  (raises HTTP_503_SERVICE_UNAVAILABLE (Sonarr.get_all_series s)
     <-> sonarr_configured s = false) /\
  (raises HTTP_503_SERVICE_UNAVAILABLE (Sonarr.get_all_tags s)
     <-> sonarr_configured s = false) /\
  (raises HTTP_503_SERVICE_UNAVAILABLE (Radarr.get_all_movies s)
     <-> radarr_configured s = false) /\
  (raises HTTP_503_SERVICE_UNAVAILABLE (Radarr.get_movie s movie_id)
     <-> radarr_configured s = false) /\
  (raises HTTP_503_SERVICE_UNAVAILABLE (Radarr.create_tag s tag)
     <-> radarr_configured s = false) /\
  (raises HTTP_503_SERVICE_UNAVAILABLE
     (Radarr.update_movie_tags s movie_id tag_ids)
     <-> radarr_configured s = false) /\
  (* with the service configured, each handler is the code after its guard *)
  (if sonarr_configured s
   then Sonarr.get_all_series s = Ok [] /\ Sonarr.get_all_tags s = Ok []
   else True) /\
  (if radarr_configured s
   then Radarr.get_all_movies s = Ok [] /\
        Radarr.get_movie s movie_id = Raise (Radarr.movie_not_found movie_id) /\
        Radarr.create_tag s tag =
          Ok (Radarr.RadarrTagResponse.mk 999
                (Radarr.RadarrTagCreateRequest.label tag)) /\
        Radarr.update_movie_tags s movie_id tag_ids =
          Raise (Radarr.movie_not_found movie_id)
   else True).
Proof.
  assert (H404 : forall A, ~ @raises A HTTP_503_SERVICE_UNAVAILABLE
                             (Raise (Radarr.movie_not_found movie_id)))
    by (intros A; simpl; discriminate).
  assert (Hok : forall A (a : A), ~ raises HTTP_503_SERVICE_UNAVAILABLE (Ok a))
    by (intros A a; simpl; tauto).
  split_and!.
  - rewrite require_sonarr_configured_spec.
    destruct (sonarr_configured s); simpl; split; intros H;
      try reflexivity; try discriminate; contradiction.
  - rewrite require_radarr_configured_spec.
    destruct (radarr_configured s); simpl; split; intros H;
      try reflexivity; try discriminate; contradiction.
  - apply not_configured_iff_unset.
  - apply not_configured_iff_unset.
  - apply require_sonarr_configured_spec.
  - apply require_radarr_configured_spec.
  - apply sonarr_guarded_503, Hok.
  - apply sonarr_guarded_503, Hok.
  - apply radarr_guarded_503, Hok.
  - apply radarr_guarded_503, H404.
  - apply radarr_guarded_503, Hok.
  - apply radarr_guarded_503, H404.
  - unfold Sonarr.get_all_series, Sonarr.get_all_tags.
    rewrite require_sonarr_configured_spec.
    destruct (sonarr_configured s); [split; reflexivity | exact I].
  - unfold Radarr.get_all_movies, Radarr.get_movie, Radarr.create_tag,
      Radarr.update_movie_tags.
    rewrite require_radarr_configured_spec.
    destruct (radarr_configured s); [repeat split; reflexivity | exact I].
Qed.

(** ** The placeholder endpoints *)

(** C2: whenever the service is configured, Sonarr GET /series, Sonarr
    GET /tags and Radarr GET /movies each return the empty list (status
    200), whatever else the settings hold. *)
Theorem listing_endpoints_return_empty (s : Settings) :
  (sonarr_configured s = true ->
     Sonarr.get_all_series s = Ok [] /\
     Sonarr.get_all_tags s = Ok [] /\
     Sonarr.get_series s = Responded HTTP_200_OK [] /\
     Sonarr.get_tags s = Responded HTTP_200_OK []) /\
  (radarr_configured s = true ->
     Radarr.get_all_movies s = Ok [] /\
     Radarr.get_movies s = Responded HTTP_200_OK []).
Proof.
  split; intros Hc.
  - unfold Sonarr.get_series, Sonarr.get_tags, Sonarr.get_all_series,
      Sonarr.get_all_tags.
    rewrite require_sonarr_configured_spec, Hc. repeat split.
  - unfold Radarr.get_movies, Radarr.get_all_movies.
    rewrite require_radarr_configured_spec, Hc. repeat split.
Qed.

Lemma listing_endpoints_return_empty_witness :
  Sonarr.get_series Sample.configured = Responded HTTP_200_OK [] /\
  Sonarr.get_tags Sample.configured = Responded HTTP_200_OK [] /\
  Radarr.get_movies Sample.configured = Responded HTTP_200_OK [].
Proof.
  pose proof (listing_endpoints_return_empty Sample.configured) as [Hs Hr].
  destruct (Hs eq_refl) as (_ & _ & H1 & H2).
  destruct (Hr eq_refl) as (_ & H3).
  exact (conj H1 (conj H2 H3)).
Defined.

Lemma create_tag_configured (s : Settings)
    (tag : Radarr.RadarrTagCreateRequest.t) :
  radarr_configured s = true ->
  Radarr.create_tag s tag =
    Ok (Radarr.RadarrTagResponse.mk 999 (Radarr.RadarrTagCreateRequest.label tag)).
Proof.
  intros Hc. unfold Radarr.create_tag.
  rewrite require_radarr_configured_spec, Hc. reflexivity.
Qed.

Lemma validate_label_accepts (label : string) :
  1 <= len label <= 50 ->
  Radarr.RadarrTagCreateRequest.validate label =
    Some (Radarr.RadarrTagCreateRequest.mk label).
Proof.
  intros [H1 H2]. unfold Radarr.RadarrTagCreateRequest.validate.
  apply Z.leb_le in H1, H2. rewrite H1, H2. reflexivity.
Qed.

Lemma validate_label_rejects (label : string) :
  Radarr.RadarrTagCreateRequest.validate label = None
  <-> len label < 1 \/ 50 < len label.
Proof.
  unfold Radarr.RadarrTagCreateRequest.validate.
  destruct (Z.leb_spec 1 (len label)), (Z.leb_spec (len label) 50); simpl;
    split; intros Hv; try discriminate; try reflexivity; lia.
Qed.

Lemma post_tags_accepted (s : Settings) (label : string) :
  radarr_configured s = true ->
  1 <= len label <= 50 ->
  Radarr.post_tags s label =
    Responded HTTP_201_CREATED (Radarr.RadarrTagResponse.mk 999 label).
Proof.
  intros Hc Hlen. unfold Radarr.post_tags.
  rewrite (validate_label_accepts label Hlen), (create_tag_configured _ _ Hc).
  reflexivity.
Qed.

(** C3, as the code has it: tag creation applies no canonical form.  For
    every label it accepts (1 to 50 characters, Radarr configured) the
    returned tag carries the label exactly as given, with the placeholder
    id 999, so two calls return the same tag only for equal labels. *)
Theorem create_tag_returns_label_unchanged
    (s : Settings) (label label' : string) :
  radarr_configured s = true ->
  1 <= len label <= 50 ->
  1 <= len label' <= 50 ->
  Radarr.post_tags s label =
    Responded HTTP_201_CREATED (Radarr.RadarrTagResponse.mk 999 label) /\
  (Radarr.post_tags s label = Radarr.post_tags s label' <-> label = label').
Proof.
  intros Hc Hl Hl'.
  rewrite !post_tags_accepted by assumption.
  split; [reflexivity |].
  split; [intros [= ->]; reflexivity | intros ->; reflexivity].
Qed.

Lemma create_tag_returns_label_unchanged_witness :
  Radarr.post_tags Sample.configured "Dolby-Vision" =
    Responded HTTP_201_CREATED (Radarr.RadarrTagResponse.mk 999 "Dolby-Vision") /\
  (Radarr.post_tags Sample.configured "Dolby-Vision" =
     Radarr.post_tags Sample.configured "HDR" <-> "Dolby-Vision" = "HDR").
Proof.
  apply (create_tag_returns_label_unchanged Sample.configured
           "Dolby-Vision" "HDR"); [reflexivity | | ]; vm_compute; split; discriminate.
Defined.

(** C3, as stated, fails: "HDR" and "hdr" differ only in case, both are
    accepted, and the two calls return two distinct tags; no canonical form
    that identifies them is the label tag creation returns. *)
Lemma create_tag_case_variants_stay_distinct :
  Stated.same_up_to_case "HDR" "hdr" /\
  Radarr.post_tags Sample.configured "HDR" =
    Responded HTTP_201_CREATED (Radarr.RadarrTagResponse.mk 999 "HDR") /\
  Radarr.post_tags Sample.configured "hdr" =
    Responded HTTP_201_CREATED (Radarr.RadarrTagResponse.mk 999 "hdr") /\
  Radarr.post_tags Sample.configured "HDR" <>
    Radarr.post_tags Sample.configured "hdr" /\
  ~ (exists canon : string -> string,
       canon "HDR" = canon "hdr" /\ Stated.create_tag_canonicalizes canon).
Proof.
  split_and!; try reflexivity; try discriminate.
  intros (canon & Hsame & Hcanon).
  assert (Hlen : forall l, l = "HDR" \/ l = "hdr" -> 1 <= len l <= 50)
    by (intros l [-> | ->]; vm_compute; split; discriminate).
  destruct (Hcanon Sample.configured "HDR" eq_refl (Hlen _ (or_introl eq_refl)))
    as (i1 & H1).
  destruct (Hcanon Sample.configured "hdr" eq_refl (Hlen _ (or_intror eq_refl)))
    as (i2 & H2).
  vm_compute in H1, H2.
  injection H1 as _ H1'. injection H2 as _ H2'.
  rewrite <- H1', <- H2' in Hsame. discriminate.
Qed.

(** C4, as the code has it: with Radarr configured, GET /movies/{movie_id}
    raises HTTP 404 for every [movie_id], naming the id in the detail; no
    remote is consulted and no movie is ever returned.  (Without the
    configuration the guard raises 503 first.) *)
Theorem get_movie_always_not_found (s : Settings) (movie_id : Z) :
  radarr_configured s = true ->
  Radarr.get_movie s movie_id = Raise (Radarr.movie_not_found movie_id) /\
  raises HTTP_404_NOT_FOUND (Radarr.get_movie s movie_id) /\
  http_status (Radarr.get_movies_id s movie_id) = HTTP_404_NOT_FOUND /\
  (forall m : Radarr.RadarrMovieResponse, Radarr.get_movie s movie_id <> Ok m).
Proof.
  intros Hc.
  assert (Hget : Radarr.get_movie s movie_id
                 = Raise (Radarr.movie_not_found movie_id)).
  { unfold Radarr.get_movie.
    rewrite require_radarr_configured_spec, Hc. reflexivity. }
  unfold Radarr.get_movies_id. rewrite Hget.
  split_and!; try reflexivity. intros m; discriminate.
Qed.

Lemma get_movie_always_not_found_witness :
  Radarr.get_movie Sample.configured 42 =
    Raise {| status_code := 404;
             detail := DetailStr
               "Movie 42 not found (endpoint pending implementation)" |} /\
  raises HTTP_404_NOT_FOUND (Radarr.get_movie Sample.configured 42) /\
  http_status (Radarr.get_movies_id Sample.configured 42) = HTTP_404_NOT_FOUND /\
  (forall m : Radarr.RadarrMovieResponse,
     Radarr.get_movie Sample.configured 42 <> Ok m).
Proof.
  exact (get_movie_always_not_found Sample.configured 42 eq_refl).
Defined.

(** C4, as stated, fails: against a remote library that holds movie 1 the
    route still answers 404 for movie 1, and there are no settings and no
    id for which it returns a movie. *)
Lemma get_movie_ignores_remote :
  Sample.library 1 = Some Sample.the_matrix /\
  raises HTTP_404_NOT_FOUND (Radarr.get_movie Sample.configured 1) /\
  ~ Stated.get_movie_follows_remote Sample.library /\
  ~ (exists (s : Settings) (movie_id : Z) (m : Radarr.RadarrMovieResponse),
       radarr_configured s = true /\ Radarr.get_movie s movie_id = Ok m).
Proof.
  split_and!; try reflexivity.
  - intros H. specialize (H Sample.configured 1 eq_refl). discriminate H.
  - intros (s & movie_id & m & Hc & Hm).
    unfold Radarr.get_movie in Hm.
    rewrite require_radarr_configured_spec, Hc in Hm. discriminate Hm.
Qed.

(** C5: with Radarr configured, POST /tags succeeds for every label of 1 to
    50 characters and returns (status 201) a tag bearing that label and an
    integer id; the request is rejected by validation, before the handler
    and its guard run, exactly when the label is shorter than 1 or longer
    than 50 characters, so in particular for the empty label. *)
Theorem post_tags_fails_only_on_invalid_label (s : Settings) (label : string) :
  (radarr_configured s = true ->
   1 <= len label <= 50 ->
   Radarr.post_tags s label =
     Responded HTTP_201_CREATED (Radarr.RadarrTagResponse.mk 999 label)) /\
  Radarr.post_tags s "" = RejectedByValidation /\
  (Radarr.post_tags s label = RejectedByValidation
   <-> len label < 1 \/ 50 < len label).
Proof.
  split_and!.
  - apply post_tags_accepted.
  - reflexivity.
  - rewrite <- validate_label_rejects. unfold Radarr.post_tags.
    destruct (Radarr.RadarrTagCreateRequest.validate label) as [tag|].
    + split; [| discriminate].
      destruct (Radarr.create_tag s tag); discriminate.
    + split; reflexivity.
Qed.

Lemma post_tags_fails_only_on_invalid_label_witness :
  Radarr.post_tags Sample.configured "IMAX" =
    Responded HTTP_201_CREATED (Radarr.RadarrTagResponse.mk 999 "IMAX") /\
  Radarr.post_tags Sample.configured "高動態範圍影像杜比視界超高畫質版本的標籤" =
    Responded HTTP_201_CREATED
      (Radarr.RadarrTagResponse.mk 999 "高動態範圍影像杜比視界超高畫質版本的標籤") /\
  Radarr.post_tags default_settings "" = RejectedByValidation.
Proof.
  split_and!.
  - apply (post_tags_fails_only_on_invalid_label Sample.configured "IMAX");
      [reflexivity | vm_compute; split; discriminate].
  - apply (post_tags_fails_only_on_invalid_label Sample.configured
             "高動態範圍影像杜比視界超高畫質版本的標籤");
      [reflexivity | vm_compute; split; discriminate].
  - apply (post_tags_fails_only_on_invalid_label default_settings "IMAX").
Defined.

Lemma validate_sonarr_connection (url api_key : string) :
  len api_key = 32 ->
  Sonarr.SonarrConnectionRequest.validate url api_key =
    Some (Sonarr.SonarrConnectionRequest.mk url api_key).
Proof.
  intros H. unfold Sonarr.SonarrConnectionRequest.validate.
  rewrite H. reflexivity.
Qed.

Lemma validate_radarr_connection (url api_key : string) :
  len api_key = 32 ->
  Radarr.RadarrConnectionRequest.validate url api_key =
    Some (Radarr.RadarrConnectionRequest.mk url api_key).
Proof.
  intros H. unfold Radarr.RadarrConnectionRequest.validate.
  rewrite H. reflexivity.
Qed.

(** C8: POST /test-connection, for Sonarr and for Radarr, answers every
    valid body (any URL string, any API key of 32 characters) with
    [connected=True], the placeholder version and the URL of the body,
    whatever the stored settings are; it never answers [connected=False]
    and never raises. *)
Theorem test_connection_always_connected
    (s : Settings) (url api_key : string) :
  len api_key = 32 ->
  Sonarr.post_test_connection s url api_key =
    Responded HTTP_200_OK
      (Sonarr.SonarrStatusResponse.mk true (Some "(pending implementation)")
         (Some url) None) /\
  Radarr.post_test_connection s url api_key =
    Responded HTTP_200_OK
      (Radarr.RadarrStatusResponse.mk true (Some "(pending implementation)")
         (Some url) None) /\
  (forall s' : Settings,
     Sonarr.post_test_connection s' url api_key =
       Sonarr.post_test_connection s url api_key /\
     Radarr.post_test_connection s' url api_key =
       Radarr.post_test_connection s url api_key) /\
  (forall c : Sonarr.SonarrConnectionRequest.t,
     exists body, Sonarr.test_sonarr_connection s c = Ok body /\
                  Sonarr.SonarrStatusResponse.connected body = true) /\
  (forall c : Radarr.RadarrConnectionRequest.t,
     exists body, Radarr.test_radarr_connection s c = Ok body /\
                  Radarr.RadarrStatusResponse.connected body = true).
Proof.
  intros Hkey.
  unfold Sonarr.post_test_connection, Radarr.post_test_connection.
  rewrite !validate_sonarr_connection, !validate_radarr_connection
    by assumption.
  split_and!; try reflexivity.
  - intros s'. split; reflexivity.
  - intros c. eexists; split; reflexivity.
  - intros c. eexists; split; reflexivity.
Qed.

Lemma test_connection_always_connected_witness :
  Sonarr.post_test_connection default_settings "http://sonarr:8989"
    Sample.api_key =
    Responded HTTP_200_OK
      (Sonarr.SonarrStatusResponse.mk true (Some "(pending implementation)")
         (Some "http://sonarr:8989") None) /\
  Radarr.post_test_connection default_settings "http://radarr:7878"
    "ıııııııııııııııııııııııııııııııı" =
    Responded HTTP_200_OK
      (Radarr.RadarrStatusResponse.mk true (Some "(pending implementation)")
         (Some "http://radarr:7878") None).
Proof.
  split.
  - apply (test_connection_always_connected default_settings
             "http://sonarr:8989" Sample.api_key).
    reflexivity.
  - apply (test_connection_always_connected default_settings
             "http://radarr:7878" "ıııııııııııııııııııııııııııııııı").
    reflexivity.
Defined.

(** C10: GET /health and GET /health/detailed answer with HTTP 200 and the
    status field "healthy" for every state of the settings; the detailed
    check reports "healthy" whatever statuses it lists per service. *)
Theorem health_endpoints_always_healthy (s : Settings) (now : string) :
  Health.get_health s now =
    Responded HTTP_200_OK
      (Health.HealthResponse.mk "healthy" now Health.__version__) /\
  (exists body : Health.DetailedHealthResponse.t,
     Health.get_health_detailed s now = Responded HTTP_200_OK body /\
     Health.DetailedHealthResponse.status body = "healthy" /\
     Health.DetailedHealthResponse.timestamp body = now /\
     Health.DetailedHealthResponse.version body = Health.__version__) /\
  Health.get_health_detailed default_settings now =
    Responded HTTP_200_OK
      (Health.DetailedHealthResponse.mk "healthy" now "0.1.0"
         [("database",
           Health.ADict
             [("status", Health.AStr "not_implemented");
              ("note",
               Health.AStr "Database health check will be added in Phase 1")]);
          ("sonarr",
           Health.ADict [("status", Health.AStr "not_configured");
                         ("url", Health.ANone)]);
          ("radarr",
           Health.ADict [("status", Health.AStr "not_configured");
                         ("url", Health.ANone)])]
         [("debug", Health.ABool false); ("log_level", Health.AStr "INFO")]).
Proof.
  split_and!; [reflexivity | | reflexivity].
  eexists. split; [reflexivity |]. repeat split.
Qed.

(** ** Tag reconciliation *)
Section ReconcileFacts.
Import Reconcile.

Variable policy : Policy.
Variable label_of : DetectedAttribute -> string.
Variable canonicalize : string -> string.

#[local] Abbreviation createTag := (Reconcile.createTag canonicalize).
#[local] Abbreviation resolve_all :=
  (Reconcile.resolve_all label_of canonicalize).
#[local] Abbreviation known_ids := (Reconcile.known_ids label_of canonicalize).
#[local] Abbreviation desired_tags := (Reconcile.desired_tags policy).
#[local] Abbreviation reconcile :=
  (Reconcile.reconcile policy label_of canonicalize).

Lemma same_store_refl r : same_store r r.
Proof. by repeat split. Qed.

Lemma same_store_trans r1 r2 r3 :
  same_store r1 r2 -> same_store r2 r3 -> same_store r1 r3.
Proof.
  intros (?&?&?&?&?) (?&?&?&?&?). repeat split; congruence.
Qed.

Lemma createTag_cases (l : string) (r : Remote) :
  createTag l r =
    if negb (reachable r) then (inl Unreachable, record_call ListTags r)
    else if negb (authorized r)
    then (inl AuthFailed, record_call ListTags r)
    else match tags r !! canonicalize l with
         | Some id =>
             (inr (mkTag id (canonicalize l)), record_call ListTags r)
         | None =>
             if decide (canonicalize l = "")
             then (inl Conflict,
                   record_call (PostTag (canonicalize l))
                     (record_call ListTags r))
             else (inr (mkTag (next_tag_id r) (canonicalize l)),
                   mkRemote (reachable r) (authorized r) (items r)
                     (<[canonicalize l := next_tag_id r]> (tags r))
                     (next_tag_id r + 1)
                     (PostTag (canonicalize l) :: ListTags :: calls r))
         end.
Proof.
  unfold Reconcile.createTag, listTags, request, get_remote, set_remote,
    fail, mbind, mret, Client_bind, Client_ret.
  destruct r as [re au it tg nx cs]; simpl.
  destruct re, au; simpl; try reflexivity.
  destruct (tg !! canonicalize l); [reflexivity |].
  destruct (decide (canonicalize l = "")); reflexivity.
Qed.

Lemma getItem_cases (id : Z) (r : Remote) :
  getItem id r =
    if negb (reachable r) then (inl Unreachable, record_call (GetItem id) r)
    else if negb (authorized r)
    then (inl AuthFailed, record_call (GetItem id) r)
    else match items r !! id with
         | Some it => (inr it, record_call (GetItem id) r)
         | None => (inl NotFound, record_call (GetItem id) r)
         end.
Proof.
  unfold getItem, request, get_remote, fail, mbind, mret, Client_bind,
    Client_ret.
  destruct r as [re au it tg nx cs]; simpl.
  destruct re, au; simpl; try reflexivity.
  destruct (it !! id); reflexivity.
Qed.

Lemma setItemTags_cases (id : Z) (it : Item) (ids : gset Z) (r : Remote) :
  setItemTags id it ids r =
    if negb (reachable r)
    then (inl Unreachable, record_call (PutItem id ids) r)
    else if negb (authorized r)
    then (inl AuthFailed, record_call (PutItem id ids) r)
    else match items r !! id with
         | None => (inl NotFound, record_call (PutItem id ids) r)
         | Some cur =>
             if decide (version cur = version it)
             then (inr tt,
                   mkRemote (reachable r) (authorized r)
                     (<[id := mkItem (item_id it) ids (runtime_minutes it)
                                (version it + 1)]> (items r))
                     (tags r) (next_tag_id r) (PutItem id ids :: calls r))
             else (inl Conflict, record_call (PutItem id ids) r)
         end.
Proof.
  unfold setItemTags, request, get_remote, set_remote, fail, mbind, mret,
    Client_bind, Client_ret.
  destruct r as [re au its tg nx cs]; simpl.
  destruct re, au; simpl; try reflexivity.
  destruct (its !! id) as [cur|]; [| reflexivity].
  destruct (decide (version cur = version it)); reflexivity.
Qed.

Lemma resolve_all_cons (a : DetectedAttribute) (rest : list DetectedAttribute)
    (r : Remote) :
  resolve_all (a :: rest) r =
    match createTag (label_of a) r with
    | (inl e, r1) => (inl e, r1)
    | (inr t, r1) =>
        match resolve_all rest r1 with
        | (inl e, r2) => (inl e, r2)
        | (inr ids, r2) => (inr ({[tag_id t]} ∪ ids), r2)
        end
    end.
Proof. reflexivity. Qed.

Lemma reconcile_cases (id : Z) (detected : list DetectedAttribute)
    (r : Remote) :
  reconcile id detected r =
    match getItem id r with
    | (inl e, r0) => (Failed e, r0)
    | (inr it, r0) =>
        match resolve_all detected r0 with
        | (inl e, r') => (Failed e, r')
        | (inr ids, r') =>
            let desired := desired_tags (current_tags it) ids in
            if decide (desired = current_tags it)
            then (NoopAlreadyConverged, r')
            else match setItemTags id it desired r' with
                 | (inl e, r1) => (Failed e, r1)
                 | (inr _, r1) =>
                     (Applied (desired ∖ current_tags it)
                        (current_tags it ∖ desired), r1)
                 end
        end
    end.
Proof.
  unfold Reconcile.reconcile, reconcile_steps, mbind, mret, Client_bind,
    Client_ret.
  destruct (getItem id r) as [[e|it] r0]; [reflexivity |].
  destruct (resolve_all detected r0) as [[e|ids] r']; [reflexivity |].
  simpl. destruct (decide _); [reflexivity |].
  destruct (setItemTags _ _ _ r') as [[e|[]] r1]; reflexivity.
Qed.

Lemma getItem_ok (id : Z) (r r0 : Remote) (it : Item) :
  getItem id r = (inr it, r0) ->
  reachable r = true /\ authorized r = true /\ items r !! id = Some it /\
  r0 = record_call (GetItem id) r.
Proof.
  rewrite getItem_cases.
  destruct (reachable r), (authorized r); simpl; try discriminate.
  destruct (items r !! id); [| discriminate].
  intros [= -> <-]. by repeat split.
Qed.

Lemma known_ids_mono (known known' : gmap string Z)
    (detected : list DetectedAttribute) :
  known ⊆ known' ->
  (forall a, a ∈ detected -> is_Some (known !! canonicalize (label_of a))) ->
  known_ids known' detected = known_ids known detected.
Proof.
  intros Hsub. induction detected as [|a rest IH]; intros Hall; [done |].
  simpl. destruct (Hall a) as [i Hi]; [by left |].
  rewrite Hi, (lookup_weaken _ _ _ _ Hi Hsub), IH; [done |].
  intros b Hb. apply Hall. by right.
Qed.

(** A successful resolution: what it leaves behind. *)
Lemma resolve_all_ok (detected : list DetectedAttribute) :
  forall (r r' : Remote) (ids : gset Z),
    resolve_all detected r = (inr ids, r') ->
    reachable r' = reachable r /\ authorized r' = authorized r /\
    items r' = items r /\
    tags r ⊆ tags r' /\
    next_tag_id r <= next_tag_id r' /\
    (forall a, a ∈ detected ->
               is_Some (tags r' !! canonicalize (label_of a))) /\
    ids = known_ids (tags r') detected /\
    put_calls r' = put_calls r /\
    ((same_store r r' /\ mutating_calls r' = mutating_calls r) \/
     (exists t, t ∈ ids /\ next_tag_id r <= t)).
Proof.
  induction detected as [|a rest IH]; intros r r' ids.
  - intros [= <- <-]. split_and!; try done.
    + intros a Ha. inversion Ha.
    + left. split; [apply same_store_refl | done].
  - rewrite resolve_all_cons, createTag_cases.
    destruct (reachable r) eqn:Hre; simpl; [| discriminate].
    destruct (authorized r) eqn:Hau; simpl; [| discriminate].
    destruct (tags r !! canonicalize (label_of a)) as [i|] eqn:Hk.
    + (* the tag exists *)
      destruct (resolve_all rest (record_call ListTags r))
        as [[e|ids'] r2] eqn:Hrest; [discriminate |].
      intros [= <- <-].
      destruct (IH _ _ _ Hrest)
        as (Hr & Ha & Hi & Ht & Hn & Hall & Hids & Hput & Hmut).
      simpl in *.
      assert (Hk' : tags r2 !! canonicalize (label_of a) = Some i)
        by (eapply lookup_weaken; eassumption).
      split_and!; try done; try congruence.
      * intros b [-> | Hb]%elem_of_cons; [by eexists | by apply Hall].
      * by rewrite Hk', Hids.
      * destruct Hmut as [[Hs Hm] | (t & Ht1 & Ht2)].
        -- left. split; [| exact Hm].
           destruct Hs as (?&?&?&?&?). by repeat split.
        -- right. exists t. split; [by apply elem_of_union_r | done].
    + (* the tag is created *)
      destruct (decide (canonicalize (label_of a) = "")); [discriminate |].
      match goal with
      | |- context [resolve_all rest ?r1] =>
          destruct (resolve_all rest r1) as [[e|ids'] r2] eqn:Hrest
      end; [discriminate |].
      intros [= <- <-].
      destruct (IH _ _ _ Hrest)
        as (Hr & Ha & Hi & Ht & Hn & Hall & Hids & Hput & _).
      simpl in *.
      assert (Hk' : tags r2 !! canonicalize (label_of a)
                    = Some (next_tag_id r)).
      { eapply lookup_weaken; [| exact Ht]. apply lookup_insert_eq. }
      split_and!; try done; try congruence.
      * etrans; [| exact Ht]. by apply insert_subseteq.
      * lia.
      * intros b [-> | Hb]%elem_of_cons; [by eexists | by apply Hall].
      * by rewrite Hk', Hids.
      * right. exists (next_tag_id r).
        split; [by apply elem_of_union_l, elem_of_singleton | lia].
Qed.

(** When every label is known, resolution only lists the tags. *)
Lemma resolve_all_known (detected : list DetectedAttribute) :
  forall r : Remote,
    reachable r = true -> authorized r = true ->
    (forall a, a ∈ detected ->
               is_Some (tags r !! canonicalize (label_of a))) ->
    exists r' : Remote,
      resolve_all detected r = (inr (known_ids (tags r) detected), r') /\
      same_store r r' /\
      put_calls r' = put_calls r /\
      mutating_calls r' = mutating_calls r.
Proof.
  induction detected as [|a rest IH]; intros r Hre Hau Hall.
  - exists r. split_and!; done.
  - destruct (Hall a) as [i Hi]; [by left |].
    destruct (IH (record_call ListTags r)) as (r' & Hrun & Hs & Hp & Hm);
      try done.
    { intros b Hb. apply Hall. by right. }
    simpl in Hrun.
    exists r'. rewrite resolve_all_cons, createTag_cases, Hre, Hau. simpl.
    rewrite Hi, Hrun.
    split_and!; done.
Qed.

Lemma desired_tags_again (current resolved : gset Z) :
  desired_tags (desired_tags current resolved) resolved
  = desired_tags current resolved.
Proof.
  unfold Reconcile.desired_tags. destruct policy; [| done].
  by rewrite <- (assoc_L (∪)), (idemp_L (∪)).
Qed.

Lemma desired_tags_resolved (current resolved : gset Z) (t : Z) :
  t ∈ resolved -> t ∈ desired_tags current resolved.
Proof.
  unfold Reconcile.desired_tags. destruct policy; [| done].
  apply elem_of_union_r.
Qed.

(** C6: reconciliation is idempotent.  A run that finds the item, resolves
    the detected attributes and computes a desired tag set different from
    the current one returns [Applied]; whenever a run returns [Applied],
    the next run on the state it leaves returns [NoopAlreadyConverged],
    leaves the remote store as it is and issues no mutating call, so that
    the two runs issue exactly one [setItemTags] call together; and
    whenever the desired tag set equals the current one the run returns
    [NoopAlreadyConverged] without a [setItemTags] call, and without any
    mutating call when the tag ids of the remote items were assigned by the
    remote. *)
Theorem reconcile_idempotent (id : Z) (detected : list DetectedAttribute) :
  (forall (r r0 r' : Remote) (it : Item) (ids : gset Z),
     getItem id r = (inr it, r0) ->
     resolve_all detected r0 = (inr ids, r') ->
     desired_tags (current_tags it) ids <> current_tags it ->
     exists r1 : Remote,
       reconcile id detected r =
         (Applied (desired_tags (current_tags it) ids ∖ current_tags it)
            (current_tags it ∖ desired_tags (current_tags it) ids), r1)) /\
  (forall (r r1 : Remote) (added removed : gset Z),
     reconcile id detected r = (Applied added removed, r1) ->
     exists r2 : Remote,
       reconcile id detected r1 = (NoopAlreadyConverged, r2) /\
       put_calls r2 = S (put_calls r) /\
       mutating_calls r2 = mutating_calls r1 /\
       same_store r1 r2) /\
  (forall (r r0 r' : Remote) (it : Item) (ids : gset Z),
     getItem id r = (inr it, r0) ->
     resolve_all detected r0 = (inr ids, r') ->
     desired_tags (current_tags it) ids = current_tags it ->
     reconcile id detected r = (NoopAlreadyConverged, r') /\
     put_calls r' = put_calls r /\
     items r' = items r /\
     (tags_assigned r ->
      mutating_calls r' = mutating_calls r /\ same_store r r')).
Proof.
  split_and!.
  - (* a needed run applies *)
    intros r r0 r' it ids Hget Hres Hne.
    rewrite reconcile_cases, Hget, Hres. simpl.
    rewrite decide_False by done. rewrite setItemTags_cases.
    apply getItem_ok in Hget as (Hre & Hau & Hit & ->).
    apply resolve_all_ok in Hres as (Hr' & Ha' & Hi' & _). simpl in *.
    rewrite Hr', Hre, Ha', Hau, Hi', Hit. simpl.
    rewrite decide_True by done. by eexists.
  - (* Applied, then NoopAlreadyConverged *)
    intros r r1 added removed. rewrite reconcile_cases.
    destruct (getItem id r) as [[e|it] r0] eqn:Hget; [discriminate |].
    destruct (resolve_all detected r0) as [[e|ids] r'] eqn:Hres;
      [discriminate |].
    simpl. destruct (decide _) as [|Hne]; [discriminate |].
    rewrite setItemTags_cases.
    apply getItem_ok in Hget as (Hre & Hau & Hit & ->).
    apply resolve_all_ok in Hres
      as (Hr' & Ha' & Hi' & _ & _ & Hall & Hids & Hput & _).
    simpl in *.
    rewrite Hr', Hre, Ha', Hau, Hi', Hit. simpl.
    rewrite decide_True by done. intros [= _ _ <-].
    rewrite reconcile_cases, getItem_cases. simpl.
    rewrite lookup_insert_eq.
    match goal with
    | |- context [resolve_all detected ?r1'] =>
        destruct (resolve_all_known detected r1')
          as (r2 & Hrun & Hs & Hp & Hm); [done | done | done |]
    end.
    simpl in Hrun. rewrite Hrun, <- Hids. simpl.
    rewrite decide_True by apply desired_tags_again.
    exists r2. split_and!; [done | | done |].
    + rewrite Hp. unfold put_calls in *. simpl in *. by f_equal.
    + destruct Hs as (?&?&?&?&?). by repeat split.
  - (* converged *)
    intros r r0 r' it ids Hget Hres Heq.
    rewrite reconcile_cases, Hget, Hres. simpl.
    rewrite decide_True by done.
    apply getItem_ok in Hget as (Hre & Hau & Hit & ->).
    apply resolve_all_ok in Hres
      as (Hr' & Ha' & Hi' & _ & _ & _ & _ & Hput & Hmut).
    simpl in *. split_and!; try done.
    intros Hassigned.
    destruct Hmut as [[Hs Hm] | (t & Ht & Hnext)].
    + split; [done |]. destruct Hs as (?&?&?&?&?). by repeat split.
    + exfalso.
      apply (desired_tags_resolved (current_tags it)) in Ht.
      rewrite Heq in Ht. specialize (Hassigned id it t Hit Ht). lia.
Qed.

(** *** Consistency of the remote is kept by every run *)

Lemma createTag_any (l : string) (r r' : Remote) (res : ClientError + Tag) :
  createTag l r = (res, r') ->
  items r' = items r /\ next_tag_id r <= next_tag_id r' /\
  (tags_in_range r -> tags_in_range r').
Proof.
  rewrite createTag_cases.
  destruct (negb (reachable r)); [by intros [= <- <-] |].
  destruct (negb (authorized r)); [by intros [= <- <-] |].
  destruct (tags r !! canonicalize l) eqn:Hk; [by intros [= <- <-] |].
  destruct (decide (canonicalize l = "")); [by intros [= <- <-] |].
  intros [= <- <-]. simpl. split_and!; [done | lia |].
  intros Hin k t. unfold tags_in_range in *. simpl.
  rewrite lookup_insert. case_decide.
  - intros [= <-]. lia.
  - intros Hk'. specialize (Hin k t Hk'). lia.
Qed.

Lemma resolve_all_any (detected : list DetectedAttribute) :
  forall (r r' : Remote) (res : ClientError + gset Z),
    resolve_all detected r = (res, r') ->
    items r' = items r /\ next_tag_id r <= next_tag_id r' /\
    (tags_in_range r -> tags_in_range r').
Proof.
  induction detected as [|a rest IH]; intros r r' res.
  - by intros [= <- <-].
  - rewrite resolve_all_cons.
    destruct (createTag (label_of a) r) as [[e|t] r1] eqn:Hc.
    + intros [= <- <-]. eapply createTag_any, Hc.
    + apply createTag_any in Hc as (Hi1 & Hn1 & Hin1).
      destruct (resolve_all rest r1) as [[e|ids] r2] eqn:Hrest;
        intros [= <- <-];
        apply IH in Hrest as (Hi2 & Hn2 & Hin2);
        (split_and!; [congruence | lia | auto]).
Qed.

Lemma known_ids_in_range (r : Remote) (detected : list DetectedAttribute)
    (t : Z) :
  tags_in_range r -> t ∈ known_ids (tags r) detected -> t < next_tag_id r.
Proof.
  intros Hin. induction detected as [|a rest IH]; simpl.
  - intros []%elem_of_empty.
  - destruct (tags r !! canonicalize (label_of a)) as [i|] eqn:Hk; [| done].
    intros [->%elem_of_singleton | Ht]%elem_of_union; [| by apply IH].
    by eapply Hin.
Qed.

Lemma tags_assigned_later (r r' : Remote) :
  items r' = items r -> next_tag_id r <= next_tag_id r' ->
  tags_assigned r -> tags_assigned r'.
Proof.
  intros Hi Hn Has id it t Hit Ht. rewrite Hi in Hit.
  specialize (Has id it t Hit Ht). lia.
Qed.

(** Starting from a consistent remote, every run, whatever its outcome,
    leaves a consistent remote. *)
Lemma reconcile_consistent (id : Z) (detected : list DetectedAttribute)
    (r r' : Remote) (res : ReconciliationResult) :
  consistent r -> reconcile id detected r = (res, r') -> consistent r'.
Proof.
  intros [Has Hin]. rewrite reconcile_cases, getItem_cases.
  assert (Hc0 : consistent (record_call (GetItem id) r)) by done.
  destruct (negb (reachable r)); [by intros [= _ <-] |].
  destruct (negb (authorized r)); [by intros [= _ <-] |].
  destruct (items r !! id) as [it|] eqn:Hit; [| by intros [= _ <-]].
  destruct (resolve_all detected (record_call (GetItem id) r))
    as [[e|ids] r1] eqn:Hres.
  - apply resolve_all_any in Hres as (Hi & Hn & Hin1).
    intros [= _ <-]. split; [by eapply tags_assigned_later | by apply Hin1].
  - pose proof Hres as (Hi & Hn & Hin1)%resolve_all_any.
    apply resolve_all_ok in Hres as (_ & _ & _ & _ & _ & _ & Hids & _).
    simpl in *. specialize (Hin1 Hin).
    assert (Has1 : tags_assigned r1) by by eapply tags_assigned_later.
    destruct (decide _) as [|Hne]; [by intros [= _ <-] |].
    rewrite setItemTags_cases.
    destruct (negb (reachable r1)); [by intros [= _ <-] |].
    destruct (negb (authorized r1)); [by intros [= _ <-] |].
    destruct (items r1 !! id) as [cur|]; [| by intros [= _ <-]].
    destruct (decide _); [| by intros [= _ <-]].
    intros [= _ <-]. split; [| done].
    intros k it' t. simpl. rewrite lookup_insert. case_decide.
    + intros [= <-]. simpl. unfold Reconcile.desired_tags.
      assert (Hold : t ∈ current_tags it -> t < next_tag_id r1)
        by (intros Ht; specialize (Has id it t Hit Ht); lia).
      assert (Hnew : t ∈ ids -> t < next_tag_id r1)
        by (rewrite Hids; by apply known_ids_in_range).
      destruct policy; [intros [?|?]%elem_of_union |]; auto.
    + apply Has1.
Qed.

End ReconcileFacts.

(** The sample remote is consistent, and so is every remote reached from it
    by reconciliation runs. *)
Lemma sample_remote_consistent : Reconcile.consistent Sample.remote.
Proof.
  split.
  - intros id it t. unfold Sample.remote. simpl.
    intros [_ <-]%lookup_singleton_Some. simpl.
    intros [->%elem_of_singleton | ->%elem_of_singleton]%elem_of_union; lia.
  - intros l t. unfold Sample.remote. simpl.
    rewrite lookup_insert. case_decide; [intros [= <-]; lia |].
    intros [_ <-]%lookup_singleton_Some. lia.
Qed.

(** C7: under the additive policy the desired tag set is the current tags
    united with the resolved tag ids; it contains every current tag, so
    the diff removes nothing; for current tags {1,2} and detections that
    resolve to tag 3 it is {1,2,3}. *)
Theorem additive_never_removes (current resolved : gset Z) :
  Reconcile.desired_tags Reconcile.Additive current resolved
    = current ∪ resolved /\
  current ⊆ Reconcile.desired_tags Reconcile.Additive current resolved /\
  current ∖ Reconcile.desired_tags Reconcile.Additive current resolved = ∅ /\
  Reconcile.desired_tags Reconcile.Additive {[1; 2]} {[3]} = {[1; 2; 3]} /\
  fst (Sample.run Sample.remote) = Reconcile.Applied {[3]} ∅ /\
  Reconcile.current_tags <$> Reconcile.items (snd (Sample.run Sample.remote)) !! 7
    = Some {[1; 2; 3]}.
Proof.
  unfold Reconcile.desired_tags. split_and!.
  - done.
  - apply union_subseteq_l.
  - apply set_eq. intros t.
    rewrite elem_of_difference, elem_of_union, elem_of_empty. tauto.
  - by vm_compute.
  - by vm_compute.
  - by vm_compute.
Qed.

Lemma reconcile_idempotent_witness :
  exists r2 : Reconcile.Remote,
    Sample.run (snd (Sample.run Sample.remote))
      = (Reconcile.NoopAlreadyConverged, r2) /\
    Reconcile.put_calls r2 = S (Reconcile.put_calls Sample.remote) /\
    Reconcile.mutating_calls r2
      = Reconcile.mutating_calls (snd (Sample.run Sample.remote)) /\
    Reconcile.same_store (snd (Sample.run Sample.remote)) r2.
Proof.
  apply (proj1 (proj2
           (reconcile_idempotent Reconcile.Additive
              Reconcile.default_label_of Stated.casefold 7
              [Reconcile.HDR10]))
           Sample.remote (snd (Sample.run Sample.remote))
           {[3]} ∅).
  vm_compute. reflexivity.
Defined.

(** * Further properties of the code *)

(** ** The log level validator *)

Lemma in_levels_In (x : string) : in_levels x = true <-> In x valid_levels.
Proof.
  unfold in_levels. rewrite existsb_exists. split.
  - intros (y & Hy & ->%String.eqb_eq). exact Hy.
  - intros H. exists x. split; [exact H | apply String.eqb_refl].
Qed.

Lemma upper_lower_ascii (c : ascii) :
  upper_ascii (Stated.lower_ascii c) = upper_ascii c.
Proof. destruct c as [[] [] [] [] [] [] [] []]; reflexivity. Qed.

Lemma lower_upper_ascii (c : ascii) :
  Stated.lower_ascii (upper_ascii c) = Stated.lower_ascii c.
Proof. destruct c as [[] [] [] [] [] [] [] []]; reflexivity. Qed.

Lemma upper_casefold (s : string) : upper (Stated.casefold s) = upper s.
Proof.
  induction s as [|c s IH]; simpl; [reflexivity |].
  by rewrite upper_lower_ascii, IH.
Qed.

Lemma casefold_upper (s : string) :
  Stated.casefold (upper s) = Stated.casefold s.
Proof.
  induction s as [|c s IH]; simpl; [reflexivity |].
  by rewrite lower_upper_ascii, IH.
Qed.

Lemma valid_levels_upper (l : string) : In l valid_levels -> upper l = l.
Proof.
  simpl. intros [<- | [<- | [<- | [<- | [<- | []]]]]]; reflexivity.
Qed.

Lemma validate_log_level_valid (v l : string) :
  validate_log_level v = Valid l -> l = upper v /\ In l valid_levels.
Proof.
  unfold validate_log_level.
  destruct (in_levels (upper v)) eqn:Hin; simpl; [| discriminate].
  intros [= <-]. by apply in_levels_In in Hin.
Qed.

(** X1: a log level the validator accepts comes back in upper case, is one
    of the five level names, and is accepted unchanged when validated
    again. *)
Theorem validate_log_level_normal_form (v l : string) :
  validate_log_level v = Valid l ->
  l = upper v /\ In l valid_levels /\ validate_log_level l = Valid l.
Proof.
  intros (-> & Hin)%validate_log_level_valid.
  split; [reflexivity |]. split; [exact Hin |].
  unfold validate_log_level. rewrite (valid_levels_upper _ Hin).
  apply in_levels_In in Hin. by rewrite Hin.
Qed.

Lemma validate_log_level_normal_form_witness :
  "WARNING" = upper "Warning" /\ In "WARNING" valid_levels /\
  validate_log_level "WARNING" = Valid "WARNING".
Proof.
  apply (validate_log_level_normal_form "Warning" "WARNING"). reflexivity.
Defined.

(** X2: for ASCII text, the validator accepts exactly the spellings of the
    five level names in any mix of upper and lower case, and raises
    [ValueError] for everything else, the empty string included. *)
Theorem validate_log_level_accepts_iff (v : string) :
  ascii_only v = true ->
  ((exists l, validate_log_level v = Valid l) <->
   (exists l, In l valid_levels /\ Stated.same_up_to_case v l)) /\
  ((forall l, In l valid_levels -> ~ Stated.same_up_to_case v l) ->
   exists msg, validate_log_level v = ValueError msg) /\
  (exists msg, validate_log_level "" = ValueError msg).
Proof.
  intros _. unfold Stated.same_up_to_case. split_and!.
  - split.
    + intros (l & Hl). apply validate_log_level_valid in Hl as (-> & Hin).
      exists (upper v). split; [exact Hin | by rewrite casefold_upper].
    + intros (l & Hin & Hcase). exists l.
      assert (Hup : upper v = l).
      { rewrite <- (upper_casefold v), Hcase, upper_casefold.
        by apply valid_levels_upper. }
      unfold validate_log_level. rewrite Hup.
      apply in_levels_In in Hin. by rewrite Hin.
  - intros Hno. unfold validate_log_level.
    destruct (in_levels (upper v)) eqn:Hin; simpl; [| by eexists].
    apply in_levels_In in Hin. exfalso.
    apply (Hno _ Hin). by rewrite casefold_upper.
  - by eexists.
Qed.

Lemma validate_log_level_accepts_iff_witness :
  (exists l, validate_log_level "debug" = Valid l) <->
  (exists l, In l valid_levels /\ Stated.same_up_to_case "debug" l).
Proof.
  apply (validate_log_level_accepts_iff "debug"). reflexivity.
Defined.

(** X3: the level a validated setting holds is a level name of the
    [logging] module, so reading it with [getattr] at import finds a
    level between [DEBUG] (10) and [CRITICAL] (50). *)
Theorem validated_level_is_logging_level (v l : string) :
  validate_log_level v = Valid l ->
  exists n : Z, Main.logging_level l = Some n /\ 10 <= n <= 50.
Proof.
  intros (_ & Hin)%validate_log_level_valid.
  simpl in Hin.
  destruct Hin as [<- | [<- | [<- | [<- | [<- | []]]]]];
    eexists; (split; [reflexivity | lia]).
Qed.

Lemma validated_level_is_logging_level_witness :
  exists n : Z, Main.logging_level "ERROR" = Some n /\ 10 <= n <= 50.
Proof.
  apply (validated_level_is_logging_level "error" "ERROR"). reflexivity.
Defined.

(** ** The settings singleton *)

Lemma get_settings_cached {Env : Type} (construct : Env -> Validated Settings)
    (s : Settings) (envs : list Env) :
  get_settings_calls construct envs (Some s)
  = repeat (Valid s) (length envs).
Proof.
  induction envs as [|env later IH]; simpl; [reflexivity |].
  by rewrite IH.
Qed.

(** X4: the settings are loaded once.  After the first call of
    [get_settings] that returns, every later call returns the same settings
    whatever the environment has become; a call whose construction fails
    caches nothing, so the next call constructs again. *)
Theorem get_settings_loads_once {Env : Type}
    (construct : Env -> Validated Settings) (env : Env) (later : list Env) :
  (forall s : Settings,
     construct env = Valid s ->
     get_settings_calls construct (env :: later) None
     = Valid s :: repeat (Valid s) (length later)) /\
  (forall msg : string,
     construct env = ValueError msg ->
     get_settings construct env None = (ValueError msg, None) /\
     get_settings_calls construct (env :: later) None
     = ValueError msg :: get_settings_calls construct later None).
Proof.
  split.
  - intros s Hs. simpl. unfold get_settings. rewrite Hs.
    by rewrite get_settings_cached.
  - intros msg Hmsg. unfold get_settings_calls, get_settings.
    by rewrite Hmsg.
Qed.

Lemma get_settings_loads_once_witness :
  exists s : Settings,
    get_settings_calls Sample.settings_of_log_level
      ["debug"; "verbose"; "error"] None
    = [Valid s; Valid s; Valid s] /\
    log_level s = "DEBUG".
Proof.
  eexists. split.
  - apply (proj1 (get_settings_loads_once Sample.settings_of_log_level
                    "debug" ["verbose"; "error"])).
    reflexivity.
  - reflexivity.
Defined.

(** ** What the status and health endpoints show *)

Lemma configured_url_set (url key : option string) :
  truthy (py_and url key) = true ->
  exists u : string, url = Some u /\ u <> "".
Proof. intros [Hu _]%configured_andb. exact Hu. Qed.

(** X5: the status endpoints never raise.  They report [connected] exactly
    when the service is configured, which is exactly when the library
    endpoints of the service are not refused with 503; a connected report
    carries the configured URL (a non-empty string) and no error, any other
    report carries an error message and neither URL nor version. *)
Theorem status_reports_configuration (s : Settings) :
  (exists body : Sonarr.SonarrStatusResponse.t,
     Sonarr.get_sonarr_status s = Ok body /\
     Sonarr.SonarrStatusResponse.connected body = sonarr_configured s /\
     (if Sonarr.SonarrStatusResponse.connected body
      then Sonarr.SonarrStatusResponse.url body = sonarr_url s /\
           is_set (Sonarr.SonarrStatusResponse.url body) /\
           Sonarr.SonarrStatusResponse.error body = None
      else Sonarr.SonarrStatusResponse.url body = None /\
           Sonarr.SonarrStatusResponse.version body = None /\
           is_Some (Sonarr.SonarrStatusResponse.error body)) /\
     (Sonarr.SonarrStatusResponse.connected body = true <->
      ~ raises HTTP_503_SERVICE_UNAVAILABLE (Sonarr.get_all_series s))) /\
  (exists body : Radarr.RadarrStatusResponse.t,
     Radarr.get_radarr_status s = Ok body /\
     Radarr.RadarrStatusResponse.connected body = radarr_configured s /\
     (if Radarr.RadarrStatusResponse.connected body
      then Radarr.RadarrStatusResponse.url body = radarr_url s /\
           is_set (Radarr.RadarrStatusResponse.url body) /\
           Radarr.RadarrStatusResponse.error body = None
      else Radarr.RadarrStatusResponse.url body = None /\
           Radarr.RadarrStatusResponse.version body = None /\
           is_Some (Radarr.RadarrStatusResponse.error body)) /\
     (Radarr.RadarrStatusResponse.connected body = true <->
      ~ raises HTTP_503_SERVICE_UNAVAILABLE (Radarr.get_all_movies s))).
Proof.
  split.
  - unfold Sonarr.get_sonarr_status, Sonarr.get_all_series.
    rewrite require_sonarr_configured_spec.
    destruct (sonarr_configured s) eqn:Hc; simpl;
      eexists; (split; [reflexivity |]); simpl.
    + split_and!; try done.
      * by apply configured_url_set in Hc.
      * split; [tauto | done].
    + split_and!; done.
  - unfold Radarr.get_radarr_status, Radarr.get_all_movies.
    rewrite require_radarr_configured_spec.
    destruct (radarr_configured s) eqn:Hc; simpl;
      eexists; (split; [reflexivity |]); simpl.
    + split_and!; try done.
      * by apply configured_url_set in Hc.
      * split; [tauto | done].
    + split_and!; done.
Qed.

(** X6: in the detailed health report each of the two services is listed
    as "configured" or "not_configured" after its settings, and its URL is
    shown (the non-empty URL of the settings) exactly when it is listed as
    configured; a URL set without an API key is reported as [None].  The
    database is always listed as "not_implemented". *)
Theorem detailed_health_lists_services (s : Settings) (now : string) :
  exists body : Health.DetailedHealthResponse.t,
    Health.detailed_health_check s now = Ok body /\
    Health.service_field body "database" "status"
      = Some (Health.AStr "not_implemented") /\
    (if sonarr_configured s
     then Health.service_field body "sonarr" "status"
            = Some (Health.AStr "configured") /\
          exists u, sonarr_url s = Some u /\ u <> "" /\
            Health.service_field body "sonarr" "url" = Some (Health.AStr u)
     else Health.service_field body "sonarr" "status"
            = Some (Health.AStr "not_configured") /\
          Health.service_field body "sonarr" "url" = Some Health.ANone) /\
    (if radarr_configured s
     then Health.service_field body "radarr" "status"
            = Some (Health.AStr "configured") /\
          exists u, radarr_url s = Some u /\ u <> "" /\
            Health.service_field body "radarr" "url" = Some (Health.AStr u)
     else Health.service_field body "radarr" "status"
            = Some (Health.AStr "not_configured") /\
          Health.service_field body "radarr" "url" = Some Health.ANone).
Proof.
  eexists. split; [reflexivity |]. split; [reflexivity |].
  unfold sonarr_configured, radarr_configured. split.
  - destruct (truthy (py_and (sonarr_url s) (sonarr_api_key s))) eqn:Hc;
      [| split; reflexivity].
    split; [reflexivity |].
    destruct (configured_url_set _ _ Hc) as (u & Hu & Hne).
    exists u. split_and!; try done.
    unfold Health.service_field. simpl. by rewrite Hu.
  - destruct (truthy (py_and (radarr_url s) (radarr_api_key s))) eqn:Hc;
      [| split; reflexivity].
    split; [reflexivity |].
    destruct (configured_url_set _ _ Hc) as (u & Hu & Hne).
    exists u. split_and!; try done.
    unfold Health.service_field. simpl. by rewrite Hu.
Qed.

(** ** The routes *)

(** X8: the HTTP status of every route.  The health and status routes
    answer 200 in every state; a connection test answers 200 for a key of
    32 characters and 422 otherwise; the listing routes answer 200 when
    their service is configured and 503 when not; reading a movie and
    writing its tags answer 404 when Radarr is configured and 503 when not;
    creating a tag answers 422 for a label outside 1 to 50 characters,
    whatever the configuration, and otherwise 201 or 503. *)
Theorem route_status_table
    (s : Settings) (now url key label : string) (movie_id : Z)
    (tag_ids : list Z) :
  http_status (Health.get_health s now) = 200 /\
  http_status (Health.get_health_detailed s now) = 200 /\
  http_status (Sonarr.get_status s) = 200 /\
  http_status (Radarr.get_status s) = 200 /\
  http_status (Sonarr.post_test_connection s url key)
    = (if len key =? 32 then 200 else 422) /\
  http_status (Radarr.post_test_connection s url key)
    = (if len key =? 32 then 200 else 422) /\
  http_status (Sonarr.get_series s)
    = (if sonarr_configured s then 200 else 503) /\
  http_status (Sonarr.get_tags s)
    = (if sonarr_configured s then 200 else 503) /\
  http_status (Radarr.get_movies s)
    = (if radarr_configured s then 200 else 503) /\
  http_status (Radarr.get_tags s)
    = (if radarr_configured s then 200 else 503) /\
  http_status (Radarr.get_movies_id s movie_id)
    = (if radarr_configured s then 404 else 503) /\
  http_status (Radarr.put_movies_id_tags s movie_id tag_ids)
    = (if radarr_configured s then 404 else 503) /\
  http_status (Radarr.post_tags s label)
    = (if (1 <=? len label) && (len label <=? 50)
       then if radarr_configured s then 201 else 503
       else 422).
Proof.
  unfold Sonarr.get_status, Radarr.get_status, Sonarr.get_sonarr_status,
    Radarr.get_radarr_status, Sonarr.post_test_connection,
    Radarr.post_test_connection, Sonarr.SonarrConnectionRequest.validate,
    Radarr.RadarrConnectionRequest.validate, Sonarr.get_series,
    Sonarr.get_tags, Sonarr.get_all_series, Sonarr.get_all_tags,
    Radarr.get_movies, Radarr.get_tags, Radarr.get_movies_id,
    Radarr.put_movies_id_tags, Radarr.post_tags,
    Radarr.RadarrTagCreateRequest.validate, Radarr.get_all_movies,
    Radarr.get_all_tags, Radarr.get_movie, Radarr.update_movie_tags,
    Radarr.create_tag.
  rewrite require_sonarr_configured_spec, require_radarr_configured_spec.
  assert (Hkey : (32 <=? len key) && (len key <=? 32) = (len key =? 32)).
  { destruct (Z.eqb_spec (len key) 32) as [-> | Hne]; [reflexivity |].
    destruct (Z.leb_spec 32 (len key)), (Z.leb_spec (len key) 32);
      simpl; try reflexivity; lia. }
  rewrite Hkey.
  destruct (sonarr_configured s), (radarr_configured s),
    (len key =? 32), ((1 <=? len label) && (len label <=? 50));
    by split_and!.
Qed.

(** X9: the two services are independent.  What the Sonarr handlers return
    depends on the Sonarr URL and key alone, and what the Radarr handlers
    return on the Radarr URL and key alone: no other setting, and no
    setting of the other service, changes an answer. *)
Theorem services_are_independent
    (s s' : Settings) (movie_id : Z) (tag : Radarr.RadarrTagCreateRequest.t)
    (tag_ids : list Z) :
  (sonarr_url s = sonarr_url s' ->
   sonarr_api_key s = sonarr_api_key s' ->
   Sonarr.get_sonarr_status s = Sonarr.get_sonarr_status s' /\
   Sonarr.get_all_series s = Sonarr.get_all_series s' /\
   Sonarr.get_all_tags s = Sonarr.get_all_tags s') /\
  (radarr_url s = radarr_url s' ->
   radarr_api_key s = radarr_api_key s' ->
   Radarr.get_radarr_status s = Radarr.get_radarr_status s' /\
   Radarr.get_all_movies s = Radarr.get_all_movies s' /\
   Radarr.get_movie s movie_id = Radarr.get_movie s' movie_id /\
   Radarr.get_all_tags s = Radarr.get_all_tags s' /\
   Radarr.create_tag s tag = Radarr.create_tag s' tag /\
   Radarr.update_movie_tags s movie_id tag_ids
     = Radarr.update_movie_tags s' movie_id tag_ids).
Proof.
  split; intros Hu Hk.
  - unfold Sonarr.get_sonarr_status, Sonarr.get_all_series,
      Sonarr.get_all_tags, Sonarr.require_sonarr_configured,
      sonarr_configured.
    by rewrite Hu, Hk.
  - unfold Radarr.get_radarr_status, Radarr.get_all_movies, Radarr.get_movie,
      Radarr.get_all_tags, Radarr.create_tag, Radarr.update_movie_tags,
      Radarr.require_radarr_configured, radarr_configured.
    by rewrite Hu, Hk.
Qed.

Lemma services_are_independent_witness :
  Sonarr.get_all_series Sample.configured
  = Sonarr.get_all_series
      (with_api_keys Sample.configured (Some Sample.api_key) None).
Proof.
  apply (proj1 (services_are_independent Sample.configured
                  (with_api_keys Sample.configured (Some Sample.api_key) None)
                  0 (Radarr.RadarrTagCreateRequest.mk "HDR") []));
    reflexivity.
Defined.

(** X12: the interactive documentation is served at [/docs] and [/redoc]
    whether or not debug mode is on, so the links of the root document
    always lead somewhere: its "docs" entry is the documentation URL of the
    application and its "health" entry is a path of the health router. *)
Theorem root_links_are_served (s : Settings) :
  Main.docs_url s = "/docs" /\
  Main.redoc_url s = "/redoc" /\
  Main.root_get "docs" (Main.root s) = Some (Main.docs_url s) /\
  (exists p, Main.root_get "health" (Main.root s) = Some p /\
             In p Main.health_paths) /\
  Main.root_get "name" (Main.root s) = Some (app_name s) /\
  Main.root_get "version" (Main.root s) = Some Health.__version__.
Proof.
  unfold Main.docs_url, Main.redoc_url.
  destruct (debug s); split_and!; try reflexivity;
    (exists "/health"; split; [reflexivity | by left]).
Qed.

(** ** The log records *)

Lemma valid_level_named (name : string) :
  In name valid_levels ->
  exists t : Logging.Level, Logging.level_named name = Some t.
Proof.
  simpl. intros [<- | [<- | [<- | [<- | [<- | []]]]]]; by eexists.
Qed.

Lemma logging_level_levelno (name : string) :
  Main.logging_level name = Logging.levelno <$> Logging.level_named name.
Proof.
  unfold Main.logging_level, Logging.level_named.
  repeat (destruct (String.eqb name _); [reflexivity |]). reflexivity.
Qed.

(** X10: every call of a guarded handler makes exactly one logger call: a
    warning when the call is refused with 503 because the service is not
    configured, and an information otherwise (also when the handler then
    answers 404).  The record of that call is created when its level is
    not below the threshold [settings.log_level], and no other record is;
    the result beside the records is the result of the handler.  A
    connection test makes one information call. *)
Theorem guarded_handlers_log_by_threshold
    (s : Settings) (movie_id : Z) (tag : Radarr.RadarrTagCreateRequest.t)
    (tag_ids : list Z) (sc : Sonarr.SonarrConnectionRequest.t)
    (rc : Radarr.RadarrConnectionRequest.t) :
  In (log_level s) valid_levels ->
  Logging.logs_one_call s (SonarrLogged.get_all_series s)
    (Sonarr.get_all_series s) /\
  Logging.logs_one_call s (SonarrLogged.get_all_tags s)
    (Sonarr.get_all_tags s) /\
  Logging.logs_one_call s (RadarrLogged.get_all_movies s)
    (Radarr.get_all_movies s) /\
  Logging.logs_one_call s (RadarrLogged.get_movie s movie_id)
    (Radarr.get_movie s movie_id) /\
  Logging.logs_one_call s (RadarrLogged.get_all_tags s)
    (Radarr.get_all_tags s) /\
  Logging.logs_one_call s (RadarrLogged.create_tag s tag)
    (Radarr.create_tag s tag) /\
  Logging.logs_one_call s (RadarrLogged.update_movie_tags s movie_id tag_ids)
    (Radarr.update_movie_tags s movie_id tag_ids) /\
  Logging.logs_one_call s (SonarrLogged.test_sonarr_connection s sc)
    (Sonarr.test_sonarr_connection s sc) /\
  Logging.logs_one_call s (RadarrLogged.test_radarr_connection s rc)
    (Radarr.test_radarr_connection s rc).
Proof.
  intros _.
  unfold Logging.logs_one_call, SonarrLogged.get_all_series,
    SonarrLogged.get_all_tags, RadarrLogged.get_all_movies,
    RadarrLogged.get_movie, RadarrLogged.get_all_tags,
    RadarrLogged.create_tag, RadarrLogged.update_movie_tags,
    SonarrLogged.test_sonarr_connection,
    RadarrLogged.test_radarr_connection,
    SonarrLogged.require_sonarr_configured,
    RadarrLogged.require_radarr_configured,
    Sonarr.get_all_series, Sonarr.get_all_tags, Radarr.get_all_movies,
    Radarr.get_movie, Radarr.get_all_tags, Radarr.create_tag,
    Radarr.update_movie_tags, Sonarr.test_sonarr_connection,
    Radarr.test_radarr_connection.
  rewrite require_sonarr_configured_spec, require_radarr_configured_spec.
  destruct (sonarr_configured s), (radarr_configured s); simpl;
    rewrite ?app_nil_r;
    split_and!; first [reflexivity | eexists; reflexivity].
Qed.

Lemma guarded_handlers_log_by_threshold_witness :
  fst (RadarrLogged.get_movie Sample.configured 42)
    = [Logging.mkLogRecord Logging.INFO "Fetching movie 42 from Radarr"] /\
  fst (SonarrLogged.get_all_series default_settings)
    = [Logging.mkLogRecord Logging.WARNING
         "Sonarr endpoint called but Sonarr is not configured"] /\
  fst (RadarrLogged.get_movie
         (Sample.settings_with_log_level Sample.configured "WARNING") 42)
    = [] /\
  fst (SonarrLogged.get_all_series
         (Sample.settings_with_log_level default_settings "ERROR"))
    = [].
Proof.
  pose proof (guarded_handlers_log_by_threshold Sample.configured 42
                (Radarr.RadarrTagCreateRequest.mk "HDR") []
                (Sonarr.SonarrConnectionRequest.mk "" Sample.api_key)
                (Radarr.RadarrConnectionRequest.mk "" Sample.api_key)) as H.
  assert (Hin : In (log_level Sample.configured) valid_levels)
    by (right; left; reflexivity).
  destruct (H Hin) as (_ & _ & _ & [_ [msg Hmsg]] & _).
  split_and!; reflexivity.
Defined.

(** X11: at startup [lifespan] makes five logger calls, and the records it
    creates are those that pass the threshold [settings.log_level].  With
    warnings enabled there is one warning for each service that is not
    configured; with information enabled there are three general records
    and one for each configured service, which names the non-empty URL of
    the settings (never the text of [None]); at [ERROR] and [CRITICAL]
    nothing is logged. *)
Theorem lifespan_startup_reports_services (s : Settings) :
  In (log_level s) valid_levels ->
  Forall (fun rec => Logging.isEnabledFor s (Logging.levelname rec) = true)
    (Main.lifespan_startup s) /\
  length (filter Logging.is_warning (Main.lifespan_startup s))
    = (if Logging.isEnabledFor s Logging.WARNING
       then (if sonarr_configured s then 0 else 1)
            + (if radarr_configured s then 0 else 1)
       else 0)%nat /\
  length (filter Logging.is_info (Main.lifespan_startup s))
    = (if Logging.isEnabledFor s Logging.INFO
       then 3 + (if sonarr_configured s then 1 else 0)
            + (if radarr_configured s then 1 else 0)
       else 0)%nat /\
  length (Main.lifespan_startup s)
    = (length (filter Logging.is_warning (Main.lifespan_startup s))
       + length (filter Logging.is_info (Main.lifespan_startup s)))%nat /\
  (if sonarr_configured s
   then exists u, sonarr_url s = Some u /\ u <> "" /\
          (Logging.isEnabledFor s Logging.INFO = true ->
           In (Logging.mkLogRecord Logging.INFO
                 ("Sonarr configured at: " +:+ u))
             (Main.lifespan_startup s))
   else Logging.isEnabledFor s Logging.WARNING = true ->
        In (Logging.mkLogRecord Logging.WARNING
              "Sonarr not configured - set SONARR_URL and SONARR_API_KEY")
          (Main.lifespan_startup s)) /\
  (if radarr_configured s
   then exists u, radarr_url s = Some u /\ u <> "" /\
          (Logging.isEnabledFor s Logging.INFO = true ->
           In (Logging.mkLogRecord Logging.INFO
                 ("Radarr configured at: " +:+ u))
             (Main.lifespan_startup s))
   else Logging.isEnabledFor s Logging.WARNING = true ->
        In (Logging.mkLogRecord Logging.WARNING
              "Radarr not configured - set RADARR_URL and RADARR_API_KEY")
          (Main.lifespan_startup s)) /\
  (log_level s = "ERROR" \/ log_level s = "CRITICAL" ->
   Main.lifespan_startup s = []).
Proof.
  intros (t & Ht)%valid_level_named.
  assert (Hhigh : log_level s = "ERROR" \/ log_level s = "CRITICAL" ->
                  t = Logging.ERROR \/ t = Logging.CRITICAL).
  { intros [H | H]; rewrite H in Ht; injection Ht as <-; auto. }
  unfold Main.lifespan_startup, Logging.emit, Logging.isEnabledFor,
    sonarr_configured, radarr_configured.
  rewrite Ht. clear Ht.
  destruct (truthy (py_and (sonarr_url s) (sonarr_api_key s))) eqn:Hs,
    (truthy (py_and (radarr_url s) (radarr_api_key s))) eqn:Hr;
    try (destruct (configured_url_set _ _ Hs) as (us & Hus & Hnes);
         rewrite Hus);
    try (destruct (configured_url_set _ _ Hr) as (ur & Hur & Hner);
         rewrite Hur);
    destruct t; simpl;
    (split_and!;
     [ repeat constructor
     | reflexivity
     | reflexivity
     | reflexivity
     | try (eexists; split_and!; [reflexivity | assumption |]);
       intros; simpl; try discriminate; tauto
     | try (eexists; split_and!; [reflexivity | assumption |]);
       intros; simpl; try discriminate; tauto
     | intros Hlvl; destruct (Hhigh Hlvl); try discriminate; reflexivity ]).
Qed.

Lemma lifespan_startup_reports_services_witness :
  length (Main.lifespan_startup Sample.configured) = 5%nat /\
  length (Main.lifespan_startup
            (Sample.settings_with_log_level default_settings "WARNING"))
    = 2%nat /\
  Main.lifespan_startup
    (Sample.settings_with_log_level default_settings "CRITICAL") = [].
Proof.
  pose proof (lifespan_startup_reports_services Sample.configured) as H.
  assert (Hin : In (log_level Sample.configured) valid_levels)
    by (right; left; reflexivity).
  destruct (H Hin) as (_ & _ & _ & Hlen & _).
  split_and!; [exact Hlen | reflexivity | reflexivity].
Defined.

(** ** The stored API keys *)

Lemma with_api_keys_configured (s : Settings) (k1 k2 : option string) :
  truthy k1 = truthy (sonarr_api_key s) ->
  truthy k2 = truthy (radarr_api_key s) ->
  sonarr_configured (with_api_keys s k1 k2) = sonarr_configured s /\
  radarr_configured (with_api_keys s k1 k2) = radarr_configured s.
Proof.
  intros H1 H2. unfold sonarr_configured, radarr_configured. simpl.
  by rewrite !truthy_py_and, H1, H2.
Qed.

(** X7: the API keys stored in the settings are disclosed by no route and
    no log record.  Replacing them by any other keys (set where the old
    ones were set) changes the answer of no route, whatever the request,
    and changes neither the root document, nor the records created at
    startup, nor the records and results of the logged handlers. *)
Theorem stored_api_keys_not_disclosed
    (s : Settings) (k1 k2 : option string) (now url key label : string)
    (movie_id : Z) (tag_ids : list Z)
    (tag : Radarr.RadarrTagCreateRequest.t) :
  truthy k1 = truthy (sonarr_api_key s) ->
  truthy k2 = truthy (radarr_api_key s) ->
  (* the routes *)
  Health.get_health (with_api_keys s k1 k2) now = Health.get_health s now /\
  Health.get_health_detailed (with_api_keys s k1 k2) now
    = Health.get_health_detailed s now /\
  Sonarr.get_status (with_api_keys s k1 k2) = Sonarr.get_status s /\
  Sonarr.post_test_connection (with_api_keys s k1 k2) url key
    = Sonarr.post_test_connection s url key /\
  Sonarr.get_series (with_api_keys s k1 k2) = Sonarr.get_series s /\
  Sonarr.get_tags (with_api_keys s k1 k2) = Sonarr.get_tags s /\
  Radarr.get_status (with_api_keys s k1 k2) = Radarr.get_status s /\
  Radarr.post_test_connection (with_api_keys s k1 k2) url key
    = Radarr.post_test_connection s url key /\
  Radarr.get_movies (with_api_keys s k1 k2) = Radarr.get_movies s /\
  Radarr.get_movies_id (with_api_keys s k1 k2) movie_id
    = Radarr.get_movies_id s movie_id /\
  Radarr.get_tags (with_api_keys s k1 k2) = Radarr.get_tags s /\
  Radarr.post_tags (with_api_keys s k1 k2) label = Radarr.post_tags s label /\
  Radarr.put_movies_id_tags (with_api_keys s k1 k2) movie_id tag_ids
    = Radarr.put_movies_id_tags s movie_id tag_ids /\
  Main.root (with_api_keys s k1 k2) = Main.root s /\
  (* the log records *)
  Main.lifespan_startup (with_api_keys s k1 k2) = Main.lifespan_startup s /\
  Main.lifespan_shutdown (with_api_keys s k1 k2) = Main.lifespan_shutdown s /\
  SonarrLogged.get_all_series (with_api_keys s k1 k2)
    = SonarrLogged.get_all_series s /\
  SonarrLogged.get_all_tags (with_api_keys s k1 k2)
    = SonarrLogged.get_all_tags s /\
  RadarrLogged.get_all_movies (with_api_keys s k1 k2)
    = RadarrLogged.get_all_movies s /\
  RadarrLogged.get_movie (with_api_keys s k1 k2) movie_id
    = RadarrLogged.get_movie s movie_id /\
  RadarrLogged.get_all_tags (with_api_keys s k1 k2)
    = RadarrLogged.get_all_tags s /\
  RadarrLogged.create_tag (with_api_keys s k1 k2) tag
    = RadarrLogged.create_tag s tag /\
  RadarrLogged.update_movie_tags (with_api_keys s k1 k2) movie_id tag_ids
    = RadarrLogged.update_movie_tags s movie_id tag_ids.
Proof.
  intros H1 H2.
  destruct (with_api_keys_configured s k1 k2 H1 H2) as [Hs Hr].
  unfold Health.get_health_detailed, Health.detailed_health_check,
    Sonarr.get_status, Sonarr.get_sonarr_status, Sonarr.get_series,
    Sonarr.get_tags, Sonarr.get_all_series, Sonarr.get_all_tags,
    Sonarr.require_sonarr_configured,
    Radarr.get_status, Radarr.get_radarr_status, Radarr.get_movies,
    Radarr.get_movies_id, Radarr.get_tags, Radarr.post_tags,
    Radarr.put_movies_id_tags, Radarr.get_all_movies, Radarr.get_movie,
    Radarr.get_all_tags, Radarr.create_tag, Radarr.update_movie_tags,
    Radarr.require_radarr_configured,
    Main.lifespan_startup,
    SonarrLogged.get_all_series, SonarrLogged.get_all_tags,
    SonarrLogged.require_sonarr_configured,
    RadarrLogged.get_all_movies, RadarrLogged.get_movie,
    RadarrLogged.get_all_tags, RadarrLogged.create_tag,
    RadarrLogged.update_movie_tags, RadarrLogged.require_radarr_configured.
  rewrite Hs, Hr. by split_and!.
Qed.

Lemma stored_api_keys_not_disclosed_witness :
  Health.get_health_detailed
    (with_api_keys Sample.configured (Some "another-key") (Some "k"))
    "2024-01-15T12:00:00+00:00"
  = Health.get_health_detailed Sample.configured "2024-01-15T12:00:00+00:00".
Proof.
  apply (stored_api_keys_not_disclosed Sample.configured (Some "another-key")
           (Some "k") "2024-01-15T12:00:00+00:00" "" "" "" 0 []
           (Radarr.RadarrTagCreateRequest.mk "HDR"));
    reflexivity.
Defined.
